(** * Repository download, import and cache invalidation of the vrc-get GUI

    Shallow embedding of [src/vrc-get-gui/src/commands/environment/packages.rs].
    Tauri commands are modelled as programs in a small state-and-failure
    monad over a [World] that records the effects they perform (network
    fetches, settings I/O, progress emission, cache invalidation).
    Collaborators outside this file (the [url] crate parser, the HTTP
    client, the settings store, file dialogs) are section variables. *)

From stdpp Require Import base list gmap sets strings.
From Stdlib Require Import Sorting.Permutation.

Local Open Scope string_scope.

(** ** Data model *)

(** A parsed [url::Url], represented by its serialisation [as_str()]. *)
Abbreviation Url := string (only parsing).

(** [IndexMap<Box<str>, Box<str>>] of custom headers, in insertion order. *)
Abbreviation Headers := (list (string * string)) (only parsing).

(** [RustError]: an aborting error propagated with [?]. *)
Record RustError := { rust_error_message : string }.

(** [std::result::Result]. *)
Inductive result (A E : Type) : Type :=
| Ok (a : A)
| Err (e : E).
Arguments Ok {A E} a.
Arguments Err {A E} e.

(** A user repository entry of the settings ([UserRepoSetting]). *)
Record UserRepoSetting := {
  repo_id : option string;
  repo_url : option Url;
  repo_name : option string;
  repo_local_path : string
}.

(** The part of [Settings] that the commands read or mutate. *)
Record Settings := {
  user_repos : list UserRepoSetting;
  ignore_curated_repository : bool;
  ignore_official_repository : bool;
  user_packages : list string
}.

(** One version of a package in a remote repository ([PackageManifest]).
    Versions are represented by their rank in semver order. *)
Record PackageManifest := {
  pkg_name : string;
  pkg_version : nat;
  pkg_prerelease : bool;
  pkg_yanked : bool
}.

Definition is_yanked (m : PackageManifest) : bool := pkg_yanked m.

(** All versions of one package of a repository ([PackageVersions]). *)
Record PackageVersions := { versions : list PackageManifest }.

(** A downloaded repository document ([RemoteRepository]): optional
    declared id, url and name, and its packages. *)
Record RemoteRepository := {
  rr_id : option string;
  rr_url : option Url;
  rr_name : option string;
  rr_packages : list PackageVersions
}.

(** [TauriBasePackageInfo::new] is a presentation projection of a manifest;
    the model keeps the manifest itself. *)
Definition TauriBasePackageInfo := PackageManifest.
Definition TauriBasePackageInfo_new (m : PackageManifest) : TauriBasePackageInfo := m.

Record TauriRemoteRepositoryInfo := {
  display_name : string;
  info_id : string;
  info_url : string;
  info_packages : list TauriBasePackageInfo
}.

Inductive TauriDownloadRepository :=
| BadUrl
| Duplicated
| DownloadError (message : string)
| Success (value : TauriRemoteRepositoryInfo).

Record TauriRepositoryDescriptor := {
  desc_url : Url;
  desc_headers : Headers
}.

Inductive TauriAddRepositoryResult := AddBadUrl | AddSuccess.

Inductive AddUserPackageResult :=
| AUP_Success | AUP_NonAbsolute | AUP_BadPackage | AUP_AlreadyAdded.

Inductive TauriAddUserPackageWithPickerResult :=
| NoFolderSelected | InvalidSelection | AlreadyAdded | Successful.

(** A folder returned by the native picker: [into_string] succeeds only on
    UTF-8 paths. *)
Inductive PickedPath := PathUtf8 (p : string) | PathNotUtf8.

(** ** Known-URL and known-id sets *)

Definition curated_repository_url : string :=
  "https://packages.vrchat.com/curated?download".
Definition official_repository_url : string :=
  "https://packages.vrchat.com/official?download".
Definition curated_repository_id : string := "com.vrchat.repos.curated".
Definition official_repository_id : string := "com.vrchat.repos.official".

(** [fn user_repo_urls(settings) -> HashSet<String>] *)
Definition user_repo_urls (settings : Settings) : gset string :=
  let user_repo_urls : gset string :=
    list_to_set (omap repo_url (user_repos settings)) in
  let user_repo_urls :=
    if negb (ignore_curated_repository settings)
    then {[ curated_repository_url ]} ∪ user_repo_urls else user_repo_urls in
  if negb (ignore_official_repository settings)
  then {[ official_repository_url ]} ∪ user_repo_urls else user_repo_urls.

(** [fn user_repo_ids(settings) -> HashSet<String>] *)
Definition user_repo_ids (settings : Settings) : gset string :=
  let user_repo_ids : gset string :=
    list_to_set (omap repo_id (user_repos settings)) in
  let user_repo_ids :=
    if negb (ignore_curated_repository settings)
    then {[ curated_repository_id ]} ∪ user_repo_ids else user_repo_ids in
  if negb (ignore_official_repository settings)
  then {[ official_repository_id ]} ∪ user_repo_ids else user_repo_ids.

(** ** Latest-version selection *)

(** [VersionSelector::latest_for(unity, include_prerelease)]. *)
Record VersionSelector := {
  vs_project_unity : option string;
  vs_include_prerelease : bool
}.

Definition latest_for (unity : option string) (include_prerelease : bool)
  : VersionSelector :=
  {| vs_project_unity := unity; vs_include_prerelease := include_prerelease |}.

(** Modelled from the spec: [VersionSelector::satisfies] of the vrc-get-vpm
    crate, which is not in this source tree.  The spec's "latest non-yanked
    selection": a yanked version never satisfies a latest-for selector, and a
    prerelease satisfies it only when prereleases are included (the unity
    constraint is vacuous for [None]). *)
Definition satisfies (sel : VersionSelector) (m : PackageManifest) : bool :=
  negb (is_yanked m) && (vs_include_prerelease sel || negb (pkg_prerelease m)).

(** Modelled from the spec: [PackageVersions::get_latest] of vrc-get-vpm, the
    latest version satisfying the selector ([max_by_key] keeps the last of
    equal maxima). *)
Definition get_latest (sel : VersionSelector) (p : PackageVersions)
  : option PackageManifest :=
  fold_left
    (fun acc m =>
       if satisfies sel m then
         match acc with
         | None => Some m
         | Some a => if Nat.leb (pkg_version a) (pkg_version m) then Some m else Some a
         end
       else acc)
    (versions p) None.

(** The preview package list built by [download_one_repository]:
    [filter_map(get_latest(..)).filter(!is_yanked).map(new)]. *)
Definition preview_packages (repo : RemoteRepository) : list TauriBasePackageInfo :=
  map TauriBasePackageInfo_new
    (filter (fun x => negb (is_yanked x))
       (omap (get_latest (latest_for None true)) (rr_packages repo))).

(** ** Effects *)

(** Observable effects of the commands, in the order they happen. *)
Inductive Event :=
| EvFetch (u : Url)                 (* RemoteRepository::download: network *)
| EvAddRemoteRepo (u : Url)         (* add_remote_repo: network and disk *)
| EvLoadSettings
| EvLoadSettingsMut
| EvSaveSettings
| EvRemoveFile (path : string)
| EvClearPackageCacheFiles
| EvAddUserPackage (path : string)
| EvRemoveUserPackage (path : string)
| EvPickFolder
| EvEmit (progress : nat)            (* progress event delivered to the GUI *)
| EvClearCache.                     (* PackagesState::clear_cache *)

(** [PackagesState]: no snapshot, or a snapshot of a given version. *)
Inductive CacheState := CacheEmpty | CacheLoaded (version : nat).

Record World := {
  w_log : list Event;
  w_cache : CacheState;
  w_settings : Settings
}.

Definition log_event (e : Event) (w : World) : World :=
  {| w_log := w_log w ++ [e]; w_cache := w_cache w; w_settings := w_settings w |}.

Definition set_settings (s : Settings) (w : World) : World :=
  {| w_log := w_log w; w_cache := w_cache w; w_settings := s |}.

(** How a command stops early: an error returned with [?], or a panic. *)
Inductive Failure :=
| Aborted (e : RustError)
| Panicked (msg : string).

Inductive outcome (A : Type) :=
| Done (a : A)
| Abort (f : Failure).
Arguments Done {A} a.
Arguments Abort {A} f.

Definition M (A : Type) : Type := World -> outcome A * World.

Definition ret {A} (a : A) : M A := fun w => (Done a, w).

Definition bind {A B} (m : M A) (k : A -> M B) : M B :=
  fun w =>
    match m w with
    | (Done a, w') => k a w'
    | (Abort f, w') => (Abort f, w')
    end.

Notation "'let*' x := m 'in' k" := (bind m (fun x => k))
  (at level 200, x name, m at level 100, k at level 200).
Notation "'let*' ' p := m 'in' k" := (bind m (fun x => match x with p => k end))
  (at level 200, p pattern, m at level 100, k at level 200).

(** The [?] operator on a [Result<_, RustError>]. *)
Definition try_ {A} (r : result A RustError) : M A :=
  fun w => match r with
           | Ok a => (Done a, w)
           | Err e => (Abort (Aborted e), w)
           end.

(** [Result::unwrap]: panics on [Err]. *)
Definition unwrap {A E} (r : result A E) : M A :=
  fun w => match r with
           | Ok a => (Done a, w)
           | Err _ => (Abort (Panicked "called `Result::unwrap()` on an `Err` value"), w)
           end.

Definition tick (e : Event) : M unit := fun w => (Done tt, log_event e w).

(** [PackagesState::clear_cache]: drops the snapshot. *)
Definition clear_cache : M unit :=
  fun w => (Done tt, {| w_log := w_log w ++ [EvClearCache]; w_cache := CacheEmpty;
                        w_settings := w_settings w |}).

(** The commands of this file that mutate the repository or user-package
    set, or clear the package cache. *)
Inductive MutatingOp :=
| OpAddRepository (url : string) (headers : Headers)
| OpRemoveRepository (id : string)
| OpImportAddRepositories (repositories : list TauriRepositoryDescriptor)
| OpAddUserPackageWithPicker
| OpRemoveUserPackages (path : string)
| OpClearPackageCache.

Section Commands.

(** [url.parse()] of the [url] crate. *)
Variable parse_url : string -> option Url.

(** The HTTP fetch and parse of [RemoteRepository::download]; an error
    carries its [to_string()] message. *)
Variable remote_download : Url -> Headers -> result RemoteRepository string.

(** [SettingsState::load] and [load_mut]: read the stored settings. *)
Variable ext_load_settings : Settings -> result Settings RustError.
Variable ext_load_settings_mut : Settings -> result Settings RustError.
(** [Settings::save]. *)
Variable ext_save_settings : Settings -> result unit RustError.
(** [add_remote_repo(&mut settings, url, None, headers, io, http)]. *)
Variable ext_add_remote_repo : Settings -> Url -> Headers -> result Settings RustError.
(** [io.remove_file(path)]. *)
Variable ext_remove_file : string -> result unit RustError.
(** [clear_package_cache(io)]: deletes the on-disk package cache. *)
Variable ext_clear_package_cache : result unit RustError.
(** [Settings::add_user_package] and [remove_user_package]. *)
Variable ext_add_user_package : Settings -> string -> AddUserPackageResult * Settings.
Variable ext_remove_user_package : Settings -> string -> Settings.
(** The native folder picker. *)
Variable pick_folder : option PickedPath.

Definition settings_load : M Settings :=
  fun w => let w := log_event EvLoadSettings w in
           try_ (ext_load_settings (w_settings w)) w.

(** The guard of [load_mut] is the settings the command then mutates. *)
Definition settings_load_mut : M Settings :=
  fun w => let w := log_event EvLoadSettingsMut w in
           match ext_load_settings_mut (w_settings w) with
           | Ok s => (Done s, set_settings s w)
           | Err e => (Abort (Aborted e), w)
           end.

Definition settings_save : M unit :=
  fun w => let w := log_event EvSaveSettings w in
           try_ (ext_save_settings (w_settings w)) w.

Definition add_remote_repo (url : Url) (headers : Headers) : M unit :=
  fun w => let w := log_event (EvAddRemoteRepo url) w in
           match ext_add_remote_repo (w_settings w) url headers with
           | Ok s => (Done tt, set_settings s w)
           | Err e => (Abort (Aborted e), w)
           end.

(** [RemoteRepository::download(client, url, headers)]: one network fetch. *)
Definition RemoteRepository_download (url : Url) (headers : Headers)
  : M (result RemoteRepository string) :=
  fun w => (Done (remote_download url headers), log_event (EvFetch url) w).

(** [async fn download_one_repository] *)
Definition download_one_repository (repository_url : Url) (headers : Headers)
    (user_repo_urls : gset string) (user_repo_ids : gset string)
  : M (result TauriDownloadRepository RustError) :=
  if decide (repository_url ∈ user_repo_urls) then ret (Ok Duplicated) else
  let* r := RemoteRepository_download repository_url headers in
  match r with
  | Err e => ret (Ok (DownloadError e))
  | Ok repo =>
      let url := default repository_url (rr_url repo) in
      let id := default url (rr_id repo) in
      if decide (id ∈ user_repo_ids) then ret (Ok Duplicated) else
      ret (Ok (Success {| info_id := id;
                          info_url := url;
                          display_name := default id (rr_name repo);
                          info_packages := preview_packages repo |}))
  end.

(** [environment_download_repository] *)
Definition environment_download_repository (url : string) (headers : Headers)
  : M TauriDownloadRepository :=
  match parse_url url with
  | None => ret BadUrl
  | Some url =>
      let* settings := settings_load in
      let user_repo_urls := user_repo_urls settings in
      let user_repo_ids := user_repo_ids settings in
      let* r := download_one_repository url headers user_repo_urls user_repo_ids in
      try_ r
  end.

(** [environment_add_repository] *)
Definition environment_add_repository (url : string) (headers : Headers)
  : M TauriAddRepositoryResult :=
  match parse_url url with
  | None => ret AddBadUrl
  | Some url =>
      let* _ := settings_load_mut in
      let* _ := add_remote_repo url headers in
      let* _ := settings_save in
      let* _ := clear_cache in
      ret AddSuccess
  end.


(** [Settings::remove_repo(predicate)]: removes the matching repositories
    and returns them. *)
Definition remove_repo (pred : UserRepoSetting -> bool) : M (list UserRepoSetting) :=
  fun w =>
    let s := w_settings w in
    let removed := filter pred (user_repos s) in
    let s' := {| user_repos := filter (fun r => negb (pred r)) (user_repos s);
                 ignore_curated_repository := ignore_curated_repository s;
                 ignore_official_repository := ignore_official_repository s;
                 user_packages := user_packages s |} in
    (Done removed, set_settings s' w).

(** [io.remove_file(path).await.ok()]: the result is discarded. *)
Definition remove_file_ok (path : string) : M (option unit) :=
  fun w => let w := log_event (EvRemoveFile path) w in
           match ext_remove_file path with
           | Ok u => (Done (Some u), w)
           | Err _ => (Done None, w)
           end.

(** [join_all] over futures that cannot fail. *)
Fixpoint join_all {A B} (f : A -> M B) (l : list A) : M (list B) :=
  match l with
  | [] => ret []
  | x :: l => let* b := f x in let* bs := join_all f l in ret (b :: bs)
  end.

Definition option_eqb_string (o : option string) (s : string) : bool :=
  match o with Some x => String.eqb x s | None => false end.

(** [environment_remove_repository] *)
Definition environment_remove_repository (id : string) : M unit :=
  let* _ := settings_load_mut in
  let* removed := remove_repo (fun r => option_eqb_string (repo_id r) id) in
  let* _ := join_all (fun x => remove_file_ok (repo_local_path x)) removed in
  let* _ := settings_save in
  let* _ := clear_cache in
  ret tt.

(** The sequential [for adding_repo in repositories { add_remote_repo(..).await?; }]. *)
Fixpoint add_all (repositories : list TauriRepositoryDescriptor) : M unit :=
  match repositories with
  | [] => ret tt
  | adding_repo :: rest =>
      let* _ := add_remote_repo (desc_url adding_repo) (desc_headers adding_repo) in
      add_all rest
  end.

(** [environment_import_add_repositories] *)
Definition environment_import_add_repositories
    (repositories : list TauriRepositoryDescriptor) : M unit :=
  let* _ := settings_load_mut in
  let* _ := add_all repositories in
  let* _ := settings_save in
  let* _ := clear_cache in
  ret tt.

(** [environment_clear_package_cache] *)
Definition environment_clear_package_cache : M unit :=
  let* _ := (fun w => try_ ext_clear_package_cache (log_event EvClearPackageCacheFiles w)) in
  let* _ := clear_cache in
  ret tt.

Definition settings_add_user_package (path : string) : M AddUserPackageResult :=
  fun w => let w := log_event (EvAddUserPackage path) w in
           let '(r, s) := ext_add_user_package (w_settings w) path in
           (Done r, set_settings s w).

Definition settings_remove_user_package (path : string) : M unit :=
  fun w => let w := log_event (EvRemoveUserPackage path) w in
           (Done tt, set_settings (ext_remove_user_package (w_settings w) path) w).

Definition blocking_pick_folder : M (option PickedPath) :=
  fun w => (Done pick_folder, log_event EvPickFolder w).

(** [environment_add_user_package_with_picker] *)
Definition environment_add_user_package_with_picker
  : M TauriAddUserPackageWithPickerResult :=
  let* picked := blocking_pick_folder in
  match picked with
  | None => ret NoFolderSelected
  | Some PathNotUtf8 => ret InvalidSelection
  | Some (PathUtf8 project_path) =>
      let* _ := settings_load_mut in
      let* r := settings_add_user_package project_path in
      match r with
      | AUP_Success =>
          let* _ := settings_save in
          let* _ := clear_cache in
          ret Successful
      | AUP_NonAbsolute => fun w => (Abort (Panicked "internal error: entered unreachable code: absolute path"), w)
      | AUP_BadPackage => ret InvalidSelection
      | AUP_AlreadyAdded => ret AlreadyAdded
      end
  end.

(** [environment_remove_user_packages] *)
Definition environment_remove_user_packages (path : string) : M unit :=
  let* _ := settings_load_mut in
  let* _ := settings_remove_user_package path in
  let* _ := settings_save in
  let* _ := clear_cache in
  ret tt.

(** *** Batch import *)

(** Modelled from the spec: [ctx.emit(count)] of the async-command context
    (module [async_command], not in this source tree).  The spec's progress
    channel collaborator "accepts an emitted progress value per completed
    batch item; closing/drop is non-fatal to the emitter": on an open channel
    the value is delivered, on a closed or dropped one it is discarded, and
    in both cases the emitter gets [Ok]. *)
Definition ctx_emit (channel_open : bool) (count : nat) : M (result unit RustError) :=
  fun w => if channel_open then (Done (Ok tt), log_event (EvEmit count) w)
           else (Done (Ok tt), w).

(** The body of one future of the [try_join_all], run at the point where it
    completes.  Between [fetch_add] and [emit] there is no [.await], so the
    increment and the emission of one task are never interleaved with another
    task's.  The fetch result depends only on the url and the headers, and the
    known sets are read-only snapshots, so running the whole body at its
    completion point gives the outcomes of any interleaving.
    [counter.fetch_add(1)] returns the value before the increment. *)
Definition import_task (user_repo_urls user_repo_ids : gset string)
    (channel_open : nat -> bool) (counter : nat)
    (adding_repo : TauriRepositoryDescriptor)
  : M (nat * (TauriRepositoryDescriptor * TauriDownloadRepository)) :=
  let* downloaded := download_one_repository (desc_url adding_repo)
                       (desc_headers adding_repo) user_repo_urls user_repo_ids in
  let* downloaded := try_ downloaded in
  let count := counter in
  let* r := ctx_emit (channel_open count) count in
  let* _ := unwrap r in
  ret (S counter, (adding_repo, downloaded)).

(** The tasks of the batch completing in the order [sched] (indices into
    [repositories]); each stores its pair in its own slot, as [try_join_all]
    does, so that the joined list is in submission order. *)
Fixpoint run_tasks (user_repo_urls user_repo_ids : gset string)
    (channel_open : nat -> bool) (repositories : list TauriRepositoryDescriptor)
    (sched : list nat) (counter : nat)
    (slots : list (option (TauriRepositoryDescriptor * TauriDownloadRepository)))
  : M (nat * list (option (TauriRepositoryDescriptor * TauriDownloadRepository))) :=
  match sched with
  | [] => ret (counter, slots)
  | i :: sched' =>
      match repositories !! i with
      | None => ret (counter, slots)
      | Some adding_repo =>
          let* '(counter', res) :=
            import_task user_repo_urls user_repo_ids channel_open counter adding_repo in
          run_tasks user_repo_urls user_repo_ids channel_open repositories sched'
            counter' (<[i := Some res]> slots)
      end
  end.

(** The re-scan [for (_, downloaded) in results.as_mut_slice()]. *)
Fixpoint dedup_pass (user_repo_ids : gset string)
    (results : list (TauriRepositoryDescriptor * TauriDownloadRepository))
  : list (TauriRepositoryDescriptor * TauriDownloadRepository) :=
  match results with
  | [] => []
  | (d, Success value) :: rest =>
      if decide (info_id value ∈ user_repo_ids)
      then (d, Duplicated) :: dedup_pass user_repo_ids rest
      else (d, Success value) :: dedup_pass ({[ info_id value ]} ∪ user_repo_ids) rest
  | p :: rest => p :: dedup_pass user_repo_ids rest
  end.

(** [environment_import_download_repositories], with the completion order
    of the concurrent fetches given by [sched] and the liveness of the
    progress channel at the k-th emission given by [channel_open k]. *)
Definition environment_import_download_repositories
    (channel_open : nat -> bool) (sched : list nat)
    (repositories : list TauriRepositoryDescriptor)
  : M (list (TauriRepositoryDescriptor * TauriDownloadRepository)) :=
  let* settings := settings_load in
  let user_repo_urls := user_repo_urls settings in
  let user_repo_ids := user_repo_ids settings in
  let* '(_, slots) :=
    run_tasks user_repo_urls user_repo_ids channel_open repositories sched 0
      (replicate (length repositories) None) in
  let results := omap id slots in
  ret (dedup_pass user_repo_ids results).

(** Runs a mutating command; the boolean says whether it completed
    successfully: [Success] for [environment_add_repository], [Successful]
    for the user-package picker, and returning at all for the others. *)
Definition run_mutating_op (op : MutatingOp) : M bool :=
  match op with
  | OpAddRepository url headers =>
      let* r := environment_add_repository url headers in
      ret (match r with AddSuccess => true | AddBadUrl => false end)
  | OpRemoveRepository id =>
      let* _ := environment_remove_repository id in ret true
  | OpImportAddRepositories repositories =>
      let* _ := environment_import_add_repositories repositories in ret true
  | OpAddUserPackageWithPicker =>
      let* r := environment_add_user_package_with_picker in
      ret (match r with Successful => true | _ => false end)
  | OpRemoveUserPackages path =>
      let* _ := environment_remove_user_packages path in ret true
  | OpClearPackageCache =>
      let* _ := environment_clear_package_cache in ret true
  end.

End Commands.

(** ** Listing commands and the GUI configuration *)

(** [Option::or]. *)
Definition option_or {A} (a b : option A) : option A :=
  match a with Some x => Some x | None => b end.

(** [Option::unwrap]: panics on [None]. *)
Definition option_unwrap {A} (o : option A) : M A :=
  fun w => match o with
           | Some a => (Done a, w)
           | None => (Abort (Panicked "called `Option::unwrap()` on a `None` value"), w)
           end.

(** [Iterator::map(f).collect::<Vec<_>>()]: [f] runs on the elements in
    order; a panic in [f] stops the collection. *)
Fixpoint collect_map {A B} (f : A -> M B) (l : list A) : M (list B) :=
  match l with
  | [] => ret []
  | x :: l => let* y := f x in let* ys := collect_map f l in ret (y :: ys)
  end.

(** [Iterator::enumerate]. *)
Definition enumerate {A} (l : list A) : list (nat * A) := zip (seq 0 (length l)) l.

(** The repository a [PackageInfo] comes from ([LocalCachedRepository]), as
    seen through [id()], [url()] and [name()]. *)
Record LocalCachedRepository := {
  lcr_id : option string;
  lcr_url : option Url;
  lcr_name : option string
}.

(** [PackageInfo]: [repo()] is [None] for a local user package. *)
Record PackageInfo := {
  pi_repo : option LocalCachedRepository;
  pi_package_json : PackageManifest
}.

Inductive TauriPackageSource :=
| LocalUser
| Remote (id : string) (display_name : string).

Record TauriPackage := {
  env_version : nat;
  index : nat;
  base : TauriBasePackageInfo;
  source : TauriPackageSource
}.

(** [TauriPackage::new] *)
Definition TauriPackage_new (env_version : nat) (index : nat) (package : PackageInfo)
  : M TauriPackage :=
  let* source :=
    match pi_repo package with
    | Some repo =>
        let* id := option_unwrap (option_or (lcr_id repo) (lcr_url repo)) in
        ret (Remote id (default id (lcr_name repo)))
    | None => ret LocalUser
    end in
  ret {| env_version := env_version; index := index;
         base := TauriBasePackageInfo_new (pi_package_json package);
         source := source |}.

(** The snapshot guarded by [PackagesState]: its [version()] and [packages()]. *)
Record PackageCollection := {
  pc_version : nat;
  pc_packages : list PackageInfo
}.

(** The part of [GuiConfig] these commands read or mutate;
    [gui_hidden_repositories] is an [IndexSet<String>], kept in insertion
    order. *)
Record GuiConfig := {
  gui_hidden_repositories : list string;
  hide_local_user_packages : bool
}.

Record TauriUserRepository := {
  ur_id : string;
  ur_url : option string;
  ur_display_name : string
}.

Record TauriRepositoriesInfo := {
  user_repositories : list TauriUserRepository;
  hidden_user_repositories : list string;
  info_hide_local_user_packages : bool;
  show_prerelease_packages : bool
}.

(** An [OsStr] path: [to_str()] succeeds only on UTF-8. *)
Inductive OsStr := OsUtf8 (s : string) | OsNotUtf8.

Definition OsStr_to_str (p : OsStr) : option string :=
  match p with OsUtf8 s => Some s | OsNotUtf8 => None end.

Record TauriUserPackage := {
  tup_path : string;
  tup_package : TauriBasePackageInfo
}.

Section Listing.

Variable ext_load_settings : Settings -> result Settings RustError.
(** [PackagesState::load(&settings, io, http)]: the cached snapshot or a
    freshly collected one; it may update the package cache. *)
Variable packages_load : Settings -> M (result PackageCollection RustError).
(** [Settings::show_prerelease_packages]. *)
Variable settings_show_prerelease_packages : Settings -> bool.
(** [UserPackageCollection::load(&settings, io)]: the user packages that
    could be read, with their paths. *)
Variable user_package_collection_load : Settings -> list (OsStr * PackageManifest).

(** [environment_packages] *)
Definition environment_packages : M (list TauriPackage) :=
  let* settings := settings_load ext_load_settings in
  let* packages := packages_load settings in
  let* packages := try_ packages in
  let version := pc_version packages in
  collect_map (fun '(index, value) => TauriPackage_new version index value)
    (enumerate (pc_packages packages)).

(** The closure of [environment_repositories_info] building one
    [TauriUserRepository]. *)
Definition TauriUserRepository_of (x : UserRepoSetting) : M TauriUserRepository :=
  let* id := option_unwrap (option_or (repo_id x) (repo_url x)) in
  ret {| ur_id := id; ur_url := repo_url x;
         ur_display_name := default id (repo_name x) |}.

(** [environment_repositories_info]; [config] is the value [config.get()]
    returns. *)
Definition environment_repositories_info (config : GuiConfig)
  : M TauriRepositoriesInfo :=
  let hidden_user_repositories := gui_hidden_repositories config in
  let hide_local_user_packages := hide_local_user_packages config in
  let* settings := settings_load ext_load_settings in
  let* user_repositories := collect_map TauriUserRepository_of (user_repos settings) in
  let show_prerelease_packages := settings_show_prerelease_packages settings in
  ret {| user_repositories := user_repositories;
         hidden_user_repositories := hidden_user_repositories;
         info_hide_local_user_packages := hide_local_user_packages;
         show_prerelease_packages := show_prerelease_packages |}.

(** [environment_get_user_packages] *)
Definition environment_get_user_packages : M (list TauriUserPackage) :=
  let* settings := settings_load ext_load_settings in
  let packages := user_package_collection_load settings in
  ret (omap (fun '(path, json) =>
               match OsStr_to_str path with
               | None => None
               | Some path => Some {| tup_path := path;
                                      tup_package := TauriBasePackageInfo_new json |}
               end) packages).

End Listing.

(** [IndexSet::insert]: a value already present keeps its position;
    otherwise it is appended. *)
Definition indexset_insert (x : string) (l : list string) : list string :=
  if decide (x ∈ l) then l else l ++ [x].

(** [IndexSet::shift_remove]: removes the value, shifting the later ones
    down. *)
Fixpoint indexset_shift_remove (x : string) (l : list string) : list string :=
  match l with
  | [] => []
  | y :: l => if String.eqb y x then l else y :: indexset_shift_remove x l
  end.

Section Config.

(** [GuiConfigState::load_mut] and [save]. *)
Variable config_load_mut : GuiConfig -> result GuiConfig RustError.
Variable config_save : GuiConfig -> result unit RustError.

(** [let mut config = config.load_mut().await?;], an update of the guarded
    config, then [config.save().await?; Ok(())]; the update stays in memory
    whether or not the save succeeds. *)
Definition config_update (f : GuiConfig -> GuiConfig) (config : GuiConfig)
  : result unit RustError * GuiConfig :=
  match config_load_mut config with
  | Err e => (Err e, config)
  | Ok config => let config := f config in (config_save config, config)
  end.

(** [environment_hide_repository] *)
Definition environment_hide_repository (repository : string) (config : GuiConfig)
  : result unit RustError * GuiConfig :=
  config_update (fun config =>
    {| gui_hidden_repositories := indexset_insert repository (gui_hidden_repositories config);
       hide_local_user_packages := hide_local_user_packages config |}) config.

(** [environment_show_repository] *)
Definition environment_show_repository (repository : string) (config : GuiConfig)
  : result unit RustError * GuiConfig :=
  config_update (fun config =>
    {| gui_hidden_repositories := indexset_shift_remove repository (gui_hidden_repositories config);
       hide_local_user_packages := hide_local_user_packages config |}) config.

(** [environment_set_hide_local_user_packages] *)
Definition environment_set_hide_local_user_packages (value : bool) (config : GuiConfig)
  : result unit RustError * GuiConfig :=
  config_update (fun config =>
    {| gui_hidden_repositories := gui_hidden_repositories config;
       hide_local_user_packages := value |}) config.

End Config.

(** The progress values delivered, in order. *)
Definition emitted (log : list Event) : list nat :=
  omap (fun e => match e with EvEmit n => Some n | _ => None end) log.

(** Whether an event reaches the network. *)
Definition is_network (e : Event) : bool :=
  match e with EvFetch _ | EvAddRemoteRepo _ => true | _ => false end.

(** Spec 4.1, Identity Resolver: [resolve(document, fetchUrl)] as the spec
    words it, to be compared with the code inlined in
    [download_one_repository]. *)
Definition resolve_identity (document : RemoteRepository) (fetch_url : Url)
  : string * string * string :=
  let url := match rr_url document with Some u => u | None => fetch_url end in
  let id := match rr_id document with Some i => i | None => url end in
  let name := match rr_name document with Some n => n | None => id end in
  (id, url, name).

(** ** Concrete runs *)

Module Examples.

Local Open Scope string_scope.

Definition manifest (v : nat) (yanked : bool) : PackageManifest :=
  {| pkg_name := "com.example.pkg"; pkg_version := v;
     pkg_prerelease := false; pkg_yanked := yanked |}.

(** A document with one package whose newest version is yanked. *)
Definition doc (id : option string) : RemoteRepository :=
  {| rr_id := id; rr_url := None; rr_name := None;
     rr_packages := [ {| versions := [manifest 1 false; manifest 2 true] |} ] |}.

(** Two URLs serve the same repository id "x"; one URL fails. *)
Definition net (u : string) (h : list (string * string)) : result RemoteRepository string :=
  if String.eqb u "https://a/1" then Ok (doc (Some "x"))
  else if String.eqb u "https://a/2" then Ok (doc (Some "x"))
  else if String.eqb u "https://a/3" then Err "404 Not Found"
  else Ok (doc None).

Definition parse (s : string) : option string :=
  if String.prefix "https://" s then Some s else None.

Definition load_ok (s : Settings) : result Settings RustError := Ok s.
Definition save_ok (s : Settings) : result unit RustError := Ok tt.
Definition add_remote_ok (s : Settings) (u : string) (h : list (string * string))
  : result Settings RustError :=
  Ok {| user_repos := user_repos s ++ [ {| repo_id := None; repo_url := Some u;
                                           repo_name := None; repo_local_path := "r" |} ];
        ignore_curated_repository := ignore_curated_repository s;
        ignore_official_repository := ignore_official_repository s;
        user_packages := user_packages s |}.
Definition remove_file_ok (p : string) : result unit RustError := Ok tt.
Definition add_user_package_ok (s : Settings) (p : string) : AddUserPackageResult * Settings :=
  (AUP_Success, s).
Definition remove_user_package_ok (s : Settings) (p : string) : Settings := s.

Definition settings : Settings :=
  {| user_repos := [ {| repo_id := Some "y"; repo_url := Some "https://b/";
                        repo_name := None; repo_local_path := "b.json" |} ];
     ignore_curated_repository := false;
     ignore_official_repository := true;
     user_packages := [] |}.

Definition w0 : World := {| w_log := []; w_cache := CacheLoaded 3; w_settings := settings |}.

Definition descriptor (u : string) : TauriRepositoryDescriptor :=
  {| desc_url := u; desc_headers := [] |}.

Definition batch : list TauriRepositoryDescriptor :=
  map descriptor ["https://a/2"; "https://a/1"; "https://a/3"; "https://b/"].

Definition sched : list nat := [3; 1; 0; 2].

Definition batch_run :=
  environment_import_download_repositories net load_ok (fun _ => true) sched batch w0.

Definition batch_results := match fst batch_run with Done r => r | Abort _ => [] end.

Definition value_x (u : string) : TauriRemoteRepositoryInfo :=
  {| info_id := "x"; info_url := u; display_name := "x";
     info_packages := preview_packages (doc (Some "x")) |}.

Definition remove_user_package_run :=
  run_mutating_op parse load_ok save_ok add_remote_ok remove_file_ok (Ok tt)
    add_user_package_ok remove_user_package_ok (Some (PathUtf8 "/pkg"))
    (OpRemoveUserPackages "/pkg") w0.

Definition cached_repo (id url name : option string) : LocalCachedRepository :=
  {| lcr_id := id; lcr_url := url; lcr_name := name |}.

(** A local user package, a package of a repository with an id, and one of a
    repository known only by its url. *)
Definition coll : PackageCollection :=
  {| pc_version := 7;
     pc_packages :=
       [ {| pi_repo := None; pi_package_json := manifest 1 false |};
         {| pi_repo := Some (cached_repo (Some "x") (Some "https://a/1") None);
            pi_package_json := manifest 2 false |};
         {| pi_repo := Some (cached_repo None (Some "https://a/3") (Some "Three"));
            pi_package_json := manifest 3 false |} ] |}.

(** A package whose repository has neither id nor url. *)
Definition coll_bad : PackageCollection :=
  {| pc_version := 7;
     pc_packages :=
       [ {| pi_repo := None; pi_package_json := manifest 1 false |};
         {| pi_repo := Some (cached_repo None None (Some "Anon"));
            pi_package_json := manifest 2 false |} ] |}.

Definition packages_load_ok (c : PackageCollection) (s : Settings)
  : M (result PackageCollection RustError) := fun w => (Done (Ok c), w).

Definition show_prerelease_off (s : Settings) : bool := false.

Definition packages_run := environment_packages load_ok (packages_load_ok coll) w0.

Definition packages_res := match fst packages_run with Done r => r | Abort _ => [] end.

(** A user repository known only by its url. *)
Definition repo_noid : UserRepoSetting :=
  {| repo_id := None; repo_url := Some "https://c/"; repo_name := None;
     repo_local_path := "c.json" |}.

Definition settings_noid : Settings :=
  {| user_repos := user_repos settings ++ [repo_noid];
     ignore_curated_repository := false;
     ignore_official_repository := true;
     user_packages := [] |}.

Definition w_noid : World :=
  {| w_log := []; w_cache := CacheLoaded 3; w_settings := settings_noid |}.

Definition config0 : GuiConfig :=
  {| gui_hidden_repositories := ["a"; "b"]; hide_local_user_packages := false |}.

Definition config_load_ok (c : GuiConfig) : result GuiConfig RustError := Ok c.
Definition config_save_ok (c : GuiConfig) : result unit RustError := Ok tt.

Definition info_run :=
  environment_repositories_info load_ok show_prerelease_off config0 w_noid.

Definition user_package_paths (s : Settings) : list (OsStr * PackageManifest) :=
  [(OsUtf8 "/p1", manifest 1 false); (OsNotUtf8, manifest 2 false);
   (OsUtf8 "/p3", manifest 3 false)].

Definition user_packages_run :=
  environment_get_user_packages load_ok user_package_paths w0.

Definition denied : RustError := {| rust_error_message := "permission denied" |}.

Definition remove_file_denied (p : string) : result unit RustError := Err denied.
Definition save_denied (s : Settings) : result unit RustError := Err denied.

Definition remove_run :=
  environment_remove_repository load_ok save_ok remove_file_denied "y" w0.

Definition remove_noid_run :=
  environment_remove_repository load_ok save_ok remove_file_ok "https://c/" w_noid.

(** [add_remote_repo] that fails on "https://a/3". *)
Definition add_remote_fail_a3 (s : Settings) (u : string) (h : list (string * string))
  : result Settings RustError :=
  if String.eqb u "https://a/3" then Err {| rust_error_message := "404 Not Found" |}
  else add_remote_ok s u h.

Definition import_add_run :=
  environment_import_add_repositories load_ok save_ok add_remote_fail_a3 batch w0.

Definition remove_save_denied_run :=
  run_mutating_op parse load_ok save_denied add_remote_ok remove_file_ok (Ok tt)
    add_user_package_ok remove_user_package_ok None (OpRemoveRepository "y") w0.

Definition add_user_package_already (s : Settings) (p : string)
  : AddUserPackageResult * Settings := (AUP_AlreadyAdded, s).

Definition picker_run :=
  environment_add_user_package_with_picker load_ok save_ok add_user_package_already
    (Some (PathUtf8 "/pkg")) w0.

Definition download_run :=
  environment_download_repository parse net load_ok "https://a/1" [] w0.

End Examples.

(** ** Properties *)

Local Close Scope string_scope.
Set Default Proof Using "Type".

(** *** Known sets *)

Lemma elem_of_user_repo_urls (settings : Settings) (x : string) :
  x ∈ user_repo_urls settings <->
  (exists r, r ∈ user_repos settings /\ repo_url r = Some x) \/
  (x = curated_repository_url /\ ignore_curated_repository settings = false) \/
  (x = official_repository_url /\ ignore_official_repository settings = false).
Proof.
  unfold user_repo_urls.
  destruct (ignore_curated_repository settings), (ignore_official_repository settings);
    simpl; rewrite ?elem_of_union, ?elem_of_singleton, elem_of_list_to_set,
    list_elem_of_omap; naive_solver.
Qed.

Lemma elem_of_user_repo_ids (settings : Settings) (x : string) :
  x ∈ user_repo_ids settings <->
  (exists r, r ∈ user_repos settings /\ repo_id r = Some x) \/
  (x = curated_repository_id /\ ignore_curated_repository settings = false) \/
  (x = official_repository_id /\ ignore_official_repository settings = false).
Proof.
  unfold user_repo_ids.
  destruct (ignore_curated_repository settings), (ignore_official_repository settings);
    simpl; rewrite ?elem_of_union, ?elem_of_singleton, elem_of_list_to_set,
    list_elem_of_omap; naive_solver.
Qed.

(** C7: the known-URL set holds exactly the URLs of the stored user
    repositories that have one, plus the curated URL when the curated ignore
    flag is false and the official URL when the official ignore flag is
    false; likewise the known-id set with ids.  When no user repository
    carries a built-in URL (or id), that built-in is in the set exactly when
    its ignore flag is false. *)
Theorem known_sets_from_settings (settings : Settings) :
  (forall x, x ∈ user_repo_urls settings <->
    (exists r, r ∈ user_repos settings /\ repo_url r = Some x) \/
    (x = curated_repository_url /\ ignore_curated_repository settings = false) \/
    (x = official_repository_url /\ ignore_official_repository settings = false)) /\
  (forall x, x ∈ user_repo_ids settings <->
    (exists r, r ∈ user_repos settings /\ repo_id r = Some x) \/
    (x = curated_repository_id /\ ignore_curated_repository settings = false) \/
    (x = official_repository_id /\ ignore_official_repository settings = false)) /\
  ((forall r, r ∈ user_repos settings -> repo_url r <> Some curated_repository_url) ->
   (curated_repository_url ∈ user_repo_urls settings <->
    ignore_curated_repository settings = false)) /\
  ((forall r, r ∈ user_repos settings -> repo_url r <> Some official_repository_url) ->
   (official_repository_url ∈ user_repo_urls settings <->
    ignore_official_repository settings = false)) /\
  ((forall r, r ∈ user_repos settings -> repo_id r <> Some curated_repository_id) ->
   (curated_repository_id ∈ user_repo_ids settings <->
    ignore_curated_repository settings = false)) /\
  ((forall r, r ∈ user_repos settings -> repo_id r <> Some official_repository_id) ->
   (official_repository_id ∈ user_repo_ids settings <->
    ignore_official_repository settings = false)).
Proof.
  split; [apply elem_of_user_repo_urls|].
  split; [apply elem_of_user_repo_ids|].
  repeat match goal with |- _ /\ _ => split end; intros Hnone;
    rewrite ?elem_of_user_repo_urls, ?elem_of_user_repo_ids;
    (split;
     [ intros [(r & Hr & He)|[[Heq H]|[Heq H]]];
       [ exfalso; by eapply Hnone
       | try done; unfold curated_repository_url, official_repository_url,
           curated_repository_id, official_repository_id in Heq; discriminate
       | try done; unfold curated_repository_url, official_repository_url,
           curated_repository_id, official_repository_id in Heq; discriminate ]
     | intros H; right; first [by left | by right] ]).
Qed.

(** *** The dedup re-scan *)

(** The ids of the [Success] outcomes of a list of pairs. *)
Definition success_ids (l : list (TauriRepositoryDescriptor * TauriDownloadRepository))
  : gset string :=
  list_to_set (omap (fun p => match p.2 with Success v => Some (info_id v) | _ => None end) l).

(** What the re-scan does to one outcome, given the ids seen before it. *)
Definition dedup_at (seen : gset string) (o : TauriDownloadRepository)
  : TauriDownloadRepository :=
  match o with
  | Success v => if decide (info_id v ∈ seen) then Duplicated else Success v
  | _ => o
  end.

Lemma dedup_pass_lookup (seen : gset string)
    (l : list (TauriRepositoryDescriptor * TauriDownloadRepository)) (i : nat) :
  dedup_pass seen l !! i
  = (fun p => (p.1, dedup_at (seen ∪ success_ids (take i l)) p.2)) <$> l !! i.
Proof.
  revert seen i. induction l as [|[d o] l IH]; intros seen i; [done|].
  destruct i as [|i].
  - unfold success_ids; simpl. rewrite union_empty_r_L.
    destruct o; simpl; try reflexivity. destruct (decide _); reflexivity.
  - destruct o as [| |m|v]; simpl; try (rewrite IH; reflexivity).
    destruct (decide (info_id v ∈ seen)) as [Hin|Hnin]; simpl; rewrite IH;
      destruct (l !! i) as [[d' o']|]; simpl; try reflexivity;
      unfold success_ids; simpl; do 3 f_equal; set_solver.
Qed.

Lemma length_dedup_pass (seen : gset string)
    (l : list (TauriRepositoryDescriptor * TauriDownloadRepository)) :
  length (dedup_pass seen l) = length l.
Proof.
  revert seen. induction l as [|[d o] l IH]; intros seen; [done|].
  destruct o; simpl; try (destruct (decide _)); simpl; by rewrite IH.
Qed.

Section Properties.

Variable parse_url : string -> option Url.
Variable remote_download : Url -> Headers -> result RemoteRepository string.
Variable ext_load_settings : Settings -> result Settings RustError.
Variable ext_load_settings_mut : Settings -> result Settings RustError.
Variable ext_save_settings : Settings -> result unit RustError.
Variable ext_add_remote_repo : Settings -> Url -> Headers -> result Settings RustError.
Variable ext_remove_file : string -> result unit RustError.
Variable ext_clear_package_cache : result unit RustError.
Variable ext_add_user_package : Settings -> string -> AddUserPackageResult * Settings.
Variable ext_remove_user_package : Settings -> string -> Settings.
Variable pick_folder : option PickedPath.

(** *** Single download *)

(** C3: when the fetch URL is already a known URL, [download_one_repository]
    answers [Duplicated] and leaves the world untouched: no network fetch, no
    other effect. *)
Theorem download_known_url_no_fetch (url : Url) (headers : Headers)
    (urls ids : gset string) (w : World) :
  url ∈ urls ->
  download_one_repository remote_download url headers urls ids w
  = (Done (Ok Duplicated), w).
Proof.
  intros Hin. unfold download_one_repository.
  destruct (decide (url ∈ urls)); [reflexivity | contradiction].
Qed.

(** A download whose URL is not known performs exactly one fetch and then
    decides from the fetched document. *)
Lemma download_fetched (url : Url) (headers : Headers) (urls ids : gset string)
    (w : World) :
  url ∉ urls ->
  download_one_repository remote_download url headers urls ids w
  = (Done (match remote_download url headers with
           | Err e => Ok (DownloadError e)
           | Ok repo =>
               let url' := default url (rr_url repo) in
               let id := default url' (rr_id repo) in
               if decide (id ∈ ids) then Ok Duplicated else
               Ok (Success {| info_id := id; info_url := url';
                              display_name := default id (rr_name repo);
                              info_packages := preview_packages repo |})
           end), log_event (EvFetch url) w).
Proof.
  intros Hnin. unfold download_one_repository.
  destruct (decide (url ∈ urls)); [contradiction|].
  unfold bind, RemoteRepository_download.
  destruct (remote_download url headers) as [repo|e]; [|reflexivity].
  destruct (decide _); reflexivity.
Qed.

(** C4: for a successfully fetched document the outcome is computed from the
    identity triple of the spec's resolver: the declared url or else the
    fetch URL, the declared id or else that url, the declared name or else
    that id; the id decides [Duplicated] against the known ids, and a
    [Success] carries exactly that triple.  The resolution itself is the
    total, pure function [resolve_identity]. *)
Theorem download_identity_resolution (url : Url) (headers : Headers)
    (urls ids : gset string) (w : World) (document : RemoteRepository)
    (id url' name : string) :
  url ∉ urls ->
  remote_download url headers = Ok document ->
  resolve_identity document url = (id, url', name) ->
  download_one_repository remote_download url headers urls ids w
  = (Done (Ok (if decide (id ∈ ids) then Duplicated else
               Success {| info_id := id; info_url := url'; display_name := name;
                          info_packages := preview_packages document |})),
     log_event (EvFetch url) w).
Proof.
  intros Hnin Hdl Hres. rewrite download_fetched by exact Hnin. rewrite Hdl.
  unfold resolve_identity in Hres.
  destruct (rr_url document), (rr_id document), (rr_name document);
    simpl in *; simplify_eq; destruct (decide _); reflexivity.
Qed.

(** *** Malformed URLs *)

(** C5: a string that does not parse as a URL makes both
    [environment_download_repository] and [environment_add_repository]
    return their [BadUrl] value, and neither performs any effect (no network,
    no settings access). *)
Theorem bad_url_no_effect (url : string) (headers : Headers) (w : World) :
  parse_url url = None ->
  environment_download_repository parse_url remote_download ext_load_settings
    url headers w = (Done BadUrl, w) /\
  environment_add_repository parse_url ext_load_settings_mut ext_save_settings
    ext_add_remote_repo url headers w = (Done AddBadUrl, w).
Proof.
  intros Hp. unfold environment_download_repository, environment_add_repository.
  rewrite Hp. split; reflexivity.
Qed.

(** *** Preview package list *)

Definition latest_step (sel : VersionSelector) (acc : option PackageManifest)
    (m : PackageManifest) : option PackageManifest :=
  if satisfies sel m then
    match acc with
    | None => Some m
    | Some a => if Nat.leb (pkg_version a) (pkg_version m) then Some m else Some a
    end
  else acc.

Lemma get_latest_fold (sel : VersionSelector) (p : PackageVersions) :
  get_latest sel p = fold_left (latest_step sel) (versions p) None.
Proof. reflexivity. Qed.

Lemma latest_fold_none (sel : VersionSelector) (l : list PackageManifest) acc :
  fold_left (latest_step sel) l acc = None <->
  acc = None /\ Forall (fun m => satisfies sel m = false) l.
Proof.
  revert acc. induction l as [|x l IH]; intros acc; simpl.
  - split; [intros ->; split; [done|constructor] | intros [-> _]; done].
  - rewrite IH, Forall_cons. unfold latest_step.
    destruct (satisfies sel x) eqn:Hx.
    + destruct acc as [a|]; [destruct (Nat.leb _ _)|]; split; intros H;
        destruct H as [H1 H2]; try discriminate; try destruct H2; congruence.
    + split; intros [H1 H2]; [split; [done|split; done] | destruct H2; done].
Qed.

Lemma latest_fold_some (sel : VersionSelector) (l : list PackageManifest) acc m :
  fold_left (latest_step sel) l acc = Some m ->
  (acc = Some m \/ (m ∈ l /\ satisfies sel m = true)) /\
  (forall a, acc = Some a -> pkg_version a <= pkg_version m) /\
  (forall m', m' ∈ l -> satisfies sel m' = true -> pkg_version m' <= pkg_version m).
Proof.
  revert acc. induction l as [|x l IH]; intros acc Hf; simpl in Hf.
  - subst acc. split; [by left|]. split; [intros a Ha; simplify_eq; lia|].
    intros m' Hm'. apply elem_of_nil in Hm'. done.
  - destruct (IH _ Hf) as (Horig & Hacc & Hl).
    unfold latest_step in Horig, Hacc.
    destruct (satisfies sel x) eqn:Hx.
    + destruct acc as [a|].
      * destruct (Nat.leb (pkg_version a) (pkg_version x)) eqn:Hle.
        -- apply Nat.leb_le in Hle.
           specialize (Hacc x eq_refl).
           split; [|split].
           ++ right. destruct Horig as [Hm|[Hm Hs]];
                [simplify_eq; split; [left|]; done | split; [right|]; done].
           ++ intros a' Ha'; simplify_eq; lia.
           ++ intros m' Hm' Hs'. apply elem_of_cons in Hm' as [->|Hm']; [lia|].
              by apply Hl.
        -- apply Nat.leb_gt in Hle.
           specialize (Hacc a eq_refl).
           split; [|split].
           ++ destruct Horig as [Hm|[Hm Hs]]; [by left | right; split; [right|]; done].
           ++ intros a' Ha'; simplify_eq; lia.
           ++ intros m' Hm' Hs'. apply elem_of_cons in Hm' as [->|Hm']; [lia|].
              by apply Hl.
      * specialize (Hacc x eq_refl).
        split; [|split].
        -- right. destruct Horig as [Hm|[Hm Hs]];
             [simplify_eq; split; [left|]; done | split; [right|]; done].
        -- intros a' Ha'; discriminate.
        -- intros m' Hm' Hs'. apply elem_of_cons in Hm' as [->|Hm']; [lia|].
           by apply Hl.
    + split; [|split].
      * destruct Horig as [Hm|[Hm Hs]]; [by left | right; split; [right|]; done].
      * exact Hacc.
      * intros m' Hm' Hs'. apply elem_of_cons in Hm' as [->|Hm']; [congruence|].
        by apply Hl.
Qed.

Lemma satisfies_latest_all (m : PackageManifest) :
  satisfies (latest_for None true) m = negb (is_yanked m).
Proof. unfold satisfies; simpl. by rewrite andb_true_r. Qed.

Lemma preview_packages_omap (repo : RemoteRepository) :
  preview_packages repo = omap (get_latest (latest_for None true)) (rr_packages repo).
Proof.
  unfold preview_packages, TauriBasePackageInfo_new. rewrite list_fmap_id.
  induction (rr_packages repo) as [|p ps IH]; [done|]. simpl.
  destruct (get_latest _ p) as [m|] eqn:Hg; [|done].
  rewrite filter_cons, decide_True; [f_equal; exact IH|].
  rewrite get_latest_fold in Hg. apply latest_fold_some in Hg.
  destruct Hg as [[Hn|[_ Hs]] _]; [discriminate|].
  rewrite satisfies_latest_all in Hs. by rewrite Hs.
Qed.

(** C6: the package list carried by a [Success] has one entry per package of
    the fetched document that has a non-yanked version, in the document's
    order, and that entry is a non-yanked version of the package that is at
    least as recent as each of its non-yanked versions; packages all of whose
    versions are yanked are absent. *)
Theorem download_preview_latest_non_yanked (url : Url) (headers : Headers)
    (urls ids : gset string) (w w' : World) (document : RemoteRepository)
    (value : TauriRemoteRepositoryInfo) :
  remote_download url headers = Ok document ->
  download_one_repository remote_download url headers urls ids w
  = (Done (Ok (Success value)), w') ->
  exists pick : PackageVersions -> option PackageManifest,
    info_packages value = omap pick (rr_packages document) /\
    forall p,
      (pick p = None <-> Forall (fun m => is_yanked m = true) (versions p)) /\
      forall m, pick p = Some m ->
        m ∈ versions p /\ is_yanked m = false /\
        forall m', m' ∈ versions p -> is_yanked m' = false ->
                   pkg_version m' <= pkg_version m.
Proof.
  intros Hdl Hrun.
  destruct (decide (url ∈ urls)) as [Hin|Hnin].
  { unfold download_one_repository in Hrun.
    destruct (decide (url ∈ urls)); [discriminate | contradiction]. }
  rewrite download_fetched in Hrun by exact Hnin. rewrite Hdl in Hrun.
  simpl in Hrun. destruct (decide _); [discriminate|].
  injection Hrun as <- _.
  exists (get_latest (latest_for None true)). split.
  { apply preview_packages_omap. }
  intros p. rewrite get_latest_fold. split.
  - rewrite latest_fold_none. split.
    + intros [_ Hall]. eapply Forall_impl; [exact Hall|].
      intros m Hm. cbv beta in Hm. rewrite satisfies_latest_all in Hm.
      by destruct (is_yanked m).
    + intros Hall. split; [done|]. eapply Forall_impl; [exact Hall|].
      intros m Hm. cbv beta in Hm |- *. by rewrite satisfies_latest_all, Hm.
  - intros m Hm. apply latest_fold_some in Hm as (Horig & _ & Hmax).
    destruct Horig as [Hn|[Hin' Hs]]; [discriminate|].
    rewrite satisfies_latest_all in Hs.
    split; [done|]. split; [by destruct (is_yanked m)|].
    intros m' Hm' Hy. apply Hmax; [done|]. by rewrite satisfies_latest_all, Hy.
Qed.

(** *** Batch import *)

(** The outcome [download_one_repository] returns for one url and headers;
    it does not depend on the world ([download_result_spec]). *)
Definition download_result (url : Url) (headers : Headers) (urls ids : gset string)
  : TauriDownloadRepository :=
  if decide (url ∈ urls) then Duplicated else
  match remote_download url headers with
  | Err e => DownloadError e
  | Ok repo =>
      let url' := default url (rr_url repo) in
      let id := default url' (rr_id repo) in
      if decide (id ∈ ids) then Duplicated else
      Success {| info_id := id; info_url := url';
                 display_name := default id (rr_name repo);
                 info_packages := preview_packages repo |}
  end.

Definition log_events (es : list Event) (w : World) : World :=
  {| w_log := w_log w ++ es; w_cache := w_cache w; w_settings := w_settings w |}.

Lemma log_events_nil (w : World) : log_events [] w = w.
Proof. destruct w; unfold log_events; simpl. by rewrite app_nil_r. Qed.

Lemma log_event_events (e : Event) (es : list Event) (w : World) :
  log_event e (log_events es w) = log_events (es ++ [e]) w.
Proof. unfold log_event, log_events; simpl. by rewrite app_assoc. Qed.

Lemma log_events_app (es1 es2 : list Event) (w : World) :
  log_events es2 (log_events es1 w) = log_events (es1 ++ es2) w.
Proof. unfold log_events; simpl. by rewrite app_assoc. Qed.

Lemma emitted_app (l1 l2 : list Event) : emitted (l1 ++ l2) = emitted l1 ++ emitted l2.
Proof. unfold emitted. apply omap_app. Qed.

Lemma download_result_spec (url : Url) (headers : Headers) (urls ids : gset string)
    (w : World) :
  download_one_repository remote_download url headers urls ids w
  = (Done (Ok (download_result url headers urls ids)),
     log_events (if decide (url ∈ urls) then [] else [EvFetch url]) w).
Proof.
  unfold download_one_repository, download_result.
  destruct (decide (url ∈ urls)).
  - by rewrite log_events_nil.
  - unfold bind, RemoteRepository_download.
    rewrite <- (log_events_nil w) at 1. rewrite log_event_events. simpl.
    destruct (remote_download url headers) as [repo|e]; [|reflexivity].
    destruct (decide _); reflexivity.
Qed.

(** The outcome of the fetch of a descriptor. *)
Definition raw_outcome (urls ids : gset string) (d : TauriRepositoryDescriptor)
  : TauriDownloadRepository :=
  download_result (desc_url d) (desc_headers d) urls ids.

Lemma import_task_spec (urls ids : gset string) (channel_open : nat -> bool)
    (counter : nat) (d : TauriRepositoryDescriptor) (w : World) :
  exists es,
    import_task remote_download urls ids channel_open counter d w
    = (Done (S counter, (d, raw_outcome urls ids d)), log_events es w) /\
    emitted es = (if channel_open counter then [counter] else []).
Proof.
  unfold import_task, bind at 1. rewrite download_result_spec.
  unfold bind, try_, ctx_emit, unwrap, ret, raw_outcome.
  destruct (channel_open counter).
  - eexists; split; [rewrite log_event_events; reflexivity|].
    rewrite emitted_app. destruct (decide _); reflexivity.
  - eexists; split; [reflexivity|]. destruct (decide _); reflexivity.
Qed.

(** The slot update of one completed task. *)
Definition fill_slot (urls ids : gset string)
    (repositories : list TauriRepositoryDescriptor)
    (slots : list (option (TauriRepositoryDescriptor * TauriDownloadRepository)))
    (i : nat) :=
  match repositories !! i with
  | Some d => <[i := Some (d, raw_outcome urls ids d)]> slots
  | None => slots
  end.

Lemma run_tasks_spec (urls ids : gset string) (channel_open : nat -> bool)
    (repositories : list TauriRepositoryDescriptor) (sched : list nat)
    (counter : nat) slots (w : World) :
  Forall (fun i => i < length repositories) sched ->
  exists es,
    run_tasks remote_download urls ids channel_open repositories sched counter slots w
    = (Done (counter + length sched, foldl (fill_slot urls ids repositories) slots sched),
       log_events es w) /\
    emitted es = filter (fun k => channel_open k) (seq counter (length sched)).
Proof.
  revert counter slots w. induction sched as [|i sched IH]; intros counter slots w Hall.
  - exists []. simpl. rewrite log_events_nil, Nat.add_0_r. split; reflexivity.
  - apply Forall_cons in Hall as [Hi Hall]. simpl.
    destruct (repositories !! i) as [d|] eqn:Hd.
    2:{ apply lookup_ge_None in Hd. lia. }
    destruct (import_task_spec urls ids channel_open counter d w) as (es1 & Ht & He1).
    unfold bind. rewrite Ht.
    destruct (IH (S counter) (<[i:=Some (d, raw_outcome urls ids d)]> slots)
                (log_events es1 w) Hall) as (es2 & Hr & He2).
    rewrite Hr, log_events_app. exists (es1 ++ es2). split.
    + assert (Hf : fill_slot urls ids repositories slots i
                   = <[i:=Some (d, raw_outcome urls ids d)]> slots)
        by (unfold fill_slot; by rewrite Hd).
      rewrite Hf. do 3 f_equal. lia.
    + rewrite emitted_app, He1, He2, filter_cons.
      cbv beta. destruct (channel_open counter); reflexivity.
Qed.

Lemma length_fill_slot (urls ids : gset string) repositories slots (i : nat) :
  length (fill_slot urls ids repositories slots i) = length slots.
Proof. unfold fill_slot. destruct (repositories !! i); [apply length_insert|done]. Qed.

Lemma fill_slots_lookup (urls ids : gset string)
    (repositories : list TauriRepositoryDescriptor) (sched : list nat)
    (slots : list (option (TauriRepositoryDescriptor * TauriDownloadRepository)))
    (j : nat) :
  length slots = length repositories ->
  foldl (fill_slot urls ids repositories) slots sched !! j
  = if decide (j ∈ sched)
    then (fun d => Some (d, raw_outcome urls ids d)) <$> repositories !! j
    else slots !! j.
Proof.
  revert slots. induction sched as [|i sched IH]; intros slots Hlen; simpl.
  - destruct (decide (j ∈ [])) as [Hn|_];
      [exfalso; exact (not_elem_of_nil _ Hn) | reflexivity].
  - rewrite IH by (rewrite length_fill_slot; exact Hlen).
    destruct (decide (j ∈ sched)) as [Hj|Hj].
    + rewrite decide_True; [done|]. by apply elem_of_cons; right.
    + destruct (decide (j = i)) as [->|Hne].
      * rewrite decide_True by (apply elem_of_cons; by left).
        unfold fill_slot. destruct (repositories !! i) as [d|] eqn:Hd.
        -- apply list_lookup_insert_eq. rewrite Hlen.
           by apply lookup_lt_Some in Hd.
        -- apply lookup_ge_None in Hd. simpl. apply lookup_ge_None. lia.
      * rewrite decide_False
          by (rewrite elem_of_cons; intros [H|H]; [exact (Hne H) | exact (Hj H)]).
        unfold fill_slot. destruct (repositories !! i); [|done].
        by apply list_lookup_insert_ne.
Qed.

Lemma fill_all_slots (urls ids : gset string)
    (repositories : list TauriRepositoryDescriptor) (sched : list nat) :
  Permutation sched (seq 0 (length repositories)) ->
  foldl (fill_slot urls ids repositories) (replicate (length repositories) None) sched
  = (fun d => Some (d, raw_outcome urls ids d)) <$> repositories.
Proof.
  intros Hperm. apply list_eq. intros j.
  rewrite fill_slots_lookup by apply length_replicate.
  rewrite list_lookup_fmap.
  destruct (decide (j ∈ sched)) as [Hj|Hj]; [done|].
  assert (Hge : length repositories <= j).
  { destruct (decide (length repositories <= j)) as [?|Hlt]; [done|].
    exfalso. apply Hj. apply list_elem_of_In.
    apply (Permutation_in j (Permutation_sym Hperm)).
    apply list_elem_of_In, elem_of_seq. lia. }
  rewrite (proj2 (lookup_ge_None _ _) Hge).
  apply lookup_ge_None. rewrite length_replicate. done.
Qed.

Lemma omap_id_some {A B} (f : A -> B) (l : list A) :
  omap id ((fun a => Some (f a)) <$> l) = f <$> l.
Proof. induction l as [|a l IH]; [done|]. simpl. f_equal. exact IH. Qed.

Lemma Forall_lt_of_perm (sched : list nat) (n : nat) :
  Permutation sched (seq 0 n) -> Forall (fun i => i < n) sched.
Proof.
  intros Hperm. apply Forall_forall. intros i Hi.
  apply list_elem_of_In, (Permutation_in i Hperm), list_elem_of_In, elem_of_seq in Hi.
  lia.
Qed.

(** The whole batch: whatever the completion order, the joined list is the
    descriptors paired with their fetch outcomes in submission order, passed
    through [dedup_pass]; the delivered progress values are the counter
    values [0 .. n-1] at which the channel was open. *)
Lemma import_batch_run (channel_open : nat -> bool) (sched : list nat)
    (repositories : list TauriRepositoryDescriptor) (w : World) (settings : Settings) :
  Permutation sched (seq 0 (length repositories)) ->
  ext_load_settings (w_settings w) = Ok settings ->
  exists es,
    environment_import_download_repositories remote_download ext_load_settings
      channel_open sched repositories w
    = (Done (dedup_pass (user_repo_ids settings)
               ((fun d => (d, raw_outcome (user_repo_urls settings)
                                 (user_repo_ids settings) d)) <$> repositories)),
       log_events (EvLoadSettings :: es) w) /\
    emitted es = filter (fun k => channel_open k) (seq 0 (length repositories)).
Proof.
  intros Hperm Hload.
  unfold environment_import_download_repositories, bind at 1, settings_load.
  simpl. rewrite Hload. simpl.
  destruct (run_tasks_spec (user_repo_urls settings) (user_repo_ids settings)
              channel_open repositories sched 0
              (replicate (length repositories) None) (log_event EvLoadSettings w)
              (Forall_lt_of_perm _ _ Hperm)) as (es & Hrun & Hem).
  unfold bind. rewrite Hrun. exists es. split.
  - rewrite fill_all_slots by exact Hperm. rewrite omap_id_some.
    rewrite <- (log_events_nil w) at 1. rewrite log_event_events, log_events_app.
    reflexivity.
  - rewrite Hem. by rewrite (Permutation_length Hperm), length_seq.
Qed.

Lemma elem_of_success_ids_take (urls ids : gset string)
    (repositories : list TauriRepositoryDescriptor) (i : nat) (x : string) :
  x ∈ success_ids (take i ((fun d => (d, raw_outcome urls ids d)) <$> repositories)) <->
  exists j d' v', j < i /\ repositories !! j = Some d' /\
                  raw_outcome urls ids d' = Success v' /\ info_id v' = x.
Proof.
  unfold success_ids. rewrite elem_of_list_to_set, list_elem_of_omap. split.
  - intros ([d' o] & Hin & Hx). apply list_elem_of_lookup in Hin as [j Hj].
    assert (Hji : j < i).
    { apply lookup_lt_Some in Hj. rewrite length_take in Hj. lia. }
    rewrite lookup_take_lt in Hj by exact Hji.
    rewrite list_lookup_fmap in Hj.
    destruct (repositories !! j) as [d''|] eqn:Hd; simpl in Hj; [|discriminate].
    injection Hj as <- <-. simpl in Hx.
    destruct (raw_outcome urls ids d'') as [| | |v'] eqn:Hr; try discriminate.
    injection Hx as <-. by exists j, d'', v'.
  - intros (j & d' & v' & Hji & Hd & Hr & <-).
    exists (d', raw_outcome urls ids d'). split.
    + apply list_elem_of_lookup. exists j.
      rewrite lookup_take_lt by exact Hji. by rewrite list_lookup_fmap, Hd.
    + simpl. by rewrite Hr.
Qed.

Lemma download_result_not_bad_url (url : Url) (headers : Headers) (urls ids : gset string) :
  download_result url headers urls ids <> BadUrl.
Proof.
  unfold download_result. destruct (decide _); [discriminate|].
  destruct (remote_download url headers); [|discriminate].
  destruct (decide _); discriminate.
Qed.

(** The pair at each position of a completed batch. *)
Lemma import_results_lookup (channel_open : nat -> bool) (sched : list nat)
    (repositories : list TauriRepositoryDescriptor) (w w' : World)
    (settings : Settings) results (i : nat) (d : TauriRepositoryDescriptor) :
  Permutation sched (seq 0 (length repositories)) ->
  ext_load_settings (w_settings w) = Ok settings ->
  environment_import_download_repositories remote_download ext_load_settings
    channel_open sched repositories w = (Done results, w') ->
  repositories !! i = Some d ->
  results !! i = Some (d, dedup_at (user_repo_ids settings ∪
     success_ids (take i ((fun d => (d, raw_outcome (user_repo_urls settings)
                                          (user_repo_ids settings) d)) <$> repositories)))
     (raw_outcome (user_repo_urls settings) (user_repo_ids settings) d)).
Proof.
  intros Hperm Hload Hrun Hd.
  destruct (import_batch_run channel_open sched repositories w settings Hperm Hload)
    as (es & Hb & _).
  rewrite Hb in Hrun. injection Hrun as <- _.
  rewrite dedup_pass_lookup, list_lookup_fmap, Hd. reflexivity.
Qed.

(** C1: in a batch import, whatever the order in which the fetches complete,
    a descriptor whose fetch yields [Success v] keeps [Success v] exactly when
    the id of [v] is not a pre-existing known id and no earlier descriptor in
    submission order yielded a [Success] with the same id; otherwise it is
    rewritten to [Duplicated].  So among the descriptors resolving to one
    id, only the earliest keeps [Success], and none does when the id was
    already known. *)
Theorem import_dedup_earliest_success (channel_open : nat -> bool) (sched : list nat)
    (repositories : list TauriRepositoryDescriptor) (w w' : World)
    (settings : Settings) results :
  Permutation sched (seq 0 (length repositories)) ->
  ext_load_settings (w_settings w) = Ok settings ->
  environment_import_download_repositories remote_download ext_load_settings
    channel_open sched repositories w = (Done results, w') ->
  forall i d v,
    repositories !! i = Some d ->
    raw_outcome (user_repo_urls settings) (user_repo_ids settings) d = Success v ->
    (results !! i = Some (d, Success v) <->
       (info_id v ∉ user_repo_ids settings) /\
       (forall j d' v', j < i -> repositories !! j = Some d' ->
         raw_outcome (user_repo_urls settings) (user_repo_ids settings) d' = Success v' ->
         info_id v' <> info_id v)) /\
    (results !! i = Some (d, Success v) \/ results !! i = Some (d, Duplicated)).
Proof.
  intros Hperm Hload Hrun i d v Hd Hraw.
  rewrite (import_results_lookup channel_open sched repositories w w' settings
             results i d Hperm Hload Hrun Hd), Hraw.
  simpl. destruct (decide _) as [Hin|Hnin].
  - split; [|by right]. split; [intros H; injection H as H; discriminate|].
    intros [Hnk Hfirst]. exfalso.
    apply elem_of_union in Hin as [Hk|Hs]; [done|].
    apply elem_of_success_ids_take in Hs as (j & d' & v' & Hj & Hd' & Hr & He).
    by apply (Hfirst j d' v').
  - split; [|by left]. split; [intros _|done]. split.
    + intros Hk. apply Hnin. by apply elem_of_union_l.
    + intros j d' v' Hj Hd' Hr He. apply Hnin. apply elem_of_union_r.
      apply elem_of_success_ids_take. by exists j, d', v'.
Qed.

Lemma filter_const_true (l : list nat) : filter (fun _ : nat => true) l = l.
Proof.
  induction l as [|k l IH]; [done|].
  rewrite filter_cons, decide_True; [by rewrite IH | exact I].
Qed.

(** C2 (as the code does it): with the channel open, a batch of [n]
    descriptors delivers the progress values [0, 1, ..., n-1] in this order,
    whatever the completion order: [fetch_add] returns the counter before
    the increment, so each value below [n] is emitted exactly once and [n]
    itself is never emitted. *)
Theorem import_progress_values (sched : list nat)
    (repositories : list TauriRepositoryDescriptor) (w : World) (settings : Settings) :
  Permutation sched (seq 0 (length repositories)) ->
  ext_load_settings (w_settings w) = Ok settings ->
  exists results w',
    environment_import_download_repositories remote_download ext_load_settings
      (fun _ => true) sched repositories w = (Done results, w') /\
    emitted (w_log w') = emitted (w_log w) ++ seq 0 (length repositories).
Proof.
  intros Hperm Hload.
  destruct (import_batch_run (fun _ => true) sched repositories w settings Hperm Hload)
    as (es & Hb & Hem).
  eexists _, _. split; [exact Hb|].
  unfold log_events; simpl. rewrite emitted_app.
  change (emitted (EvLoadSettings :: es)) with (emitted es). rewrite Hem.
  f_equal. apply filter_const_true.
Qed.

(** C9: the liveness of the progress channel has no influence on the batch:
    for any pattern of closing or dropping the channel, the batch still
    completes with one pair per descriptor, the same list it returns with
    the channel open; only the delivered progress values differ (those
    emitted while the channel was open). *)
Theorem import_closed_channel_non_fatal (channel_open : nat -> bool) (sched : list nat)
    (repositories : list TauriRepositoryDescriptor) (w : World) (settings : Settings) :
  Permutation sched (seq 0 (length repositories)) ->
  ext_load_settings (w_settings w) = Ok settings ->
  exists results w',
    environment_import_download_repositories remote_download ext_load_settings
      channel_open sched repositories w = (Done results, w') /\
    length results = length repositories /\
    fst (environment_import_download_repositories remote_download ext_load_settings
           (fun _ => true) sched repositories w) = Done results /\
    emitted (w_log w') = emitted (w_log w) ++
      filter (fun k => channel_open k) (seq 0 (length repositories)).
Proof.
  intros Hperm Hload.
  destruct (import_batch_run channel_open sched repositories w settings Hperm Hload)
    as (es & Hb & Hem).
  destruct (import_batch_run (fun _ => true) sched repositories w settings Hperm Hload)
    as (es' & Hb' & _).
  eexists _, _. split; [exact Hb|]. split; [|split].
  - by rewrite length_dedup_pass, length_fmap.
  - by rewrite Hb'.
  - unfold log_events; simpl. rewrite emitted_app.
    change (emitted (EvLoadSettings :: es)) with (emitted es). by rewrite Hem.
Qed.

(** C10: a batch that completes returns one pair per descriptor, the i-th
    pair holding the i-th descriptor; its outcome is the fetch outcome of
    that descriptor or, for a [Success] only, [Duplicated]; it is never
    [BadUrl]. *)
Theorem import_results_in_submission_order (channel_open : nat -> bool)
    (sched : list nat) (repositories : list TauriRepositoryDescriptor) (w w' : World)
    (settings : Settings) results :
  Permutation sched (seq 0 (length repositories)) ->
  ext_load_settings (w_settings w) = Ok settings ->
  environment_import_download_repositories remote_download ext_load_settings
    channel_open sched repositories w = (Done results, w') ->
  length results = length repositories /\
  forall i d, repositories !! i = Some d ->
    exists o, results !! i = Some (d, o) /\ o <> BadUrl /\
      (o = raw_outcome (user_repo_urls settings) (user_repo_ids settings) d \/
       (o = Duplicated /\ exists v,
          raw_outcome (user_repo_urls settings) (user_repo_ids settings) d = Success v)).
Proof.
  intros Hperm Hload Hrun. split.
  - destruct (import_batch_run channel_open sched repositories w settings Hperm Hload)
      as (es & Hb & _).
    rewrite Hb in Hrun. injection Hrun as <- _.
    by rewrite length_dedup_pass, length_fmap.
  - intros i d Hd.
    rewrite (import_results_lookup channel_open sched repositories w w' settings
               results i d Hperm Hload Hrun Hd).
    eexists; split; [reflexivity|].
    pose proof (download_result_not_bad_url (desc_url d) (desc_headers d)
                  (user_repo_urls settings) (user_repo_ids settings)) as Hnb.
    unfold raw_outcome in *.
    destruct (download_result _ _ _ _) as [| |m|v] eqn:Hr; simpl;
      try (split; [assumption|left; reflexivity]).
    destruct (decide _).
    + split; [discriminate|]. right. split; [done|]. by exists v.
    + split; [discriminate|]. by left.
Qed.

(** *** Cache invalidation *)

Lemma bind_done {A B} (m : M A) (k : A -> M B) (w w' : World) (y : B) :
  bind m k w = (Done y, w') ->
  exists a w1, m w = (Done a, w1) /\ k a w1 = (Done y, w').
Proof.
  unfold bind. destruct (m w) as [[a|f] w1]; intros H; [by exists a, w1|discriminate].
Qed.

Lemma clear_cache_then_ret {B} (x : B) (w w' : World) (y : B) :
  (let* _ := clear_cache in ret x) w = (Done y, w') ->
  w_cache w' = CacheEmpty /\ last (w_log w') = Some EvClearCache.
Proof.
  unfold bind, clear_cache, ret. intros H. injection H as _ <-. simpl.
  split; [done|]. apply last_snoc.
Qed.

Ltac peel_until_clear H :=
  repeat first
    [ apply clear_cache_then_ret in H; exact H
    | apply bind_done in H; destruct H as (? & ? & _ & H) ].

(** C8: every mutating command that completes successfully (add a
    repository, remove a repository, add imported repositories, add or
    remove a user package, clear the package cache) ends by calling
    [clear_cache]: the cache is empty afterwards and invalidation is the
    last effect the command performs. *)
Theorem mutating_ops_clear_cache (op : MutatingOp) (w w' : World) :
  run_mutating_op parse_url ext_load_settings_mut ext_save_settings ext_add_remote_repo
    ext_remove_file ext_clear_package_cache ext_add_user_package
    ext_remove_user_package pick_folder op w = (Done true, w') ->
  w_cache w' = CacheEmpty /\ last (w_log w') = Some EvClearCache.
Proof.
  intros Hrun. destruct op; simpl in Hrun;
    apply bind_done in Hrun; destruct Hrun as (r & w1 & Hop & Hret);
    unfold ret in Hret; assert (w1 = w') as <- by congruence.
  - destruct r; [discriminate|]. unfold environment_add_repository in Hop.
    destruct (parse_url url); [|discriminate]. peel_until_clear Hop.
  - unfold environment_remove_repository in Hop. peel_until_clear Hop.
  - unfold environment_import_add_repositories in Hop. peel_until_clear Hop.
  - destruct r; try discriminate.
    unfold environment_add_user_package_with_picker in Hop.
    apply bind_done in Hop. destruct Hop as (picked & w2 & _ & Hop).
    destruct picked as [[project_path|]|]; [|discriminate|discriminate].
    apply bind_done in Hop. destruct Hop as (? & w3 & _ & Hop).
    apply bind_done in Hop. destruct Hop as (res & w4 & _ & Hop).
    destruct res; try discriminate. peel_until_clear Hop.
  - unfold environment_remove_user_packages in Hop. peel_until_clear Hop.
  - unfold environment_clear_package_cache in Hop. peel_until_clear Hop.
Qed.

End Properties.

(** *** Listing commands *)

(** The message of an [Option::unwrap] panic. *)
Definition unwrap_none_msg : string :=
  "called `Option::unwrap()` on a `None` value"%string.

(** A panic-or-value outcome from an [option]. *)
Definition panic_on_none {A} (o : option A) : outcome A :=
  match o with Some a => Done a | None => Abort (Panicked unwrap_none_msg) end.

Lemma collect_map_pure {A B} (f : A -> M B) (g : A -> option B) :
  (forall x w, f x w = (panic_on_none (g x), w)) ->
  forall l w, collect_map f l w = (panic_on_none (mapM g l), w).
Proof.
  intros Hf l. induction l as [|x l IH]; intros w; [done|].
  simpl. unfold bind. rewrite Hf. destruct (g x) as [y|]; simpl; [|done].
  rewrite IH. by destruct (mapM g l).
Qed.

(** The [source] field [TauriPackage::new] computes, [None] where it panics. *)
Definition package_source (package : PackageInfo) : option TauriPackageSource :=
  match pi_repo package with
  | Some repo =>
      match option_or (lcr_id repo) (lcr_url repo) with
      | Some id => Some (Remote id (default id (lcr_name repo)))
      | None => None
      end
  | None => Some LocalUser
  end.

Definition tauri_package_of (version : nat) (e : nat * PackageInfo) : option TauriPackage :=
  match package_source e.2 with
  | Some s => Some {| env_version := version; index := e.1;
                      base := TauriBasePackageInfo_new (pi_package_json e.2);
                      source := s |}
  | None => None
  end.

Lemma TauriPackage_new_pure (version : nat) (e : nat * PackageInfo) (w : World) :
  (let '(index, value) := e in TauriPackage_new version index value) w
  = (panic_on_none (tauri_package_of version e), w).
Proof.
  destruct e as [i p]. unfold TauriPackage_new, tauri_package_of, package_source, bind.
  simpl. destruct (pi_repo p) as [r|]; [|done].
  unfold option_unwrap. by destruct (option_or _ _).
Qed.

Lemma enumerate_lookup {A} (l : list A) (i : nat) (x : A) :
  l !! i = Some x -> enumerate l !! i = Some (i, x).
Proof.
  intros Hx. unfold enumerate. rewrite lookup_zip_with, Hx.
  rewrite lookup_seq_lt by (apply lookup_lt_Some in Hx; lia). done.
Qed.

Lemma elem_of_enumerate {A} (l : list A) (e : nat * A) :
  e ∈ enumerate l -> e.2 ∈ l.
Proof.
  intros He. apply list_elem_of_lookup in He as [k Hk].
  unfold enumerate in Hk. apply lookup_zip_with_Some in Hk as (i & x & -> & _ & Hx).
  apply list_elem_of_lookup. by exists k.
Qed.

Lemma length_enumerate {A} (l : list A) : length (enumerate l) = length l.
Proof. unfold enumerate. rewrite length_zip_with, length_seq. lia. Qed.

Lemma package_source_None (p : PackageInfo) :
  package_source p = None <->
  exists r, pi_repo p = Some r /\ lcr_id r = None /\ lcr_url r = None.
Proof.
  unfold package_source. destruct (pi_repo p) as [r|].
  - destruct (lcr_id r) as [i|] eqn:Hi; simpl; [naive_solver|].
    destruct (lcr_url r) as [u|] eqn:Hu; simpl; naive_solver.
  - naive_solver.
Qed.

Lemma TauriUserRepository_of_pure (x : UserRepoSetting) (w : World) :
  TauriUserRepository_of x w
  = (panic_on_none (match option_or (repo_id x) (repo_url x) with
                    | Some id => Some {| ur_id := id; ur_url := repo_url x;
                                         ur_display_name := default id (repo_name x) |}
                    | None => None
                    end), w).
Proof. unfold TauriUserRepository_of, bind, option_unwrap. by destruct (option_or _ _). Qed.

Section ListingProperties.

Variable ext_load_settings : Settings -> result Settings RustError.
Variable packages_load : Settings -> M (result PackageCollection RustError).
Variable settings_show_prerelease_packages : Settings -> bool.
Variable user_package_collection_load : Settings -> list (OsStr * PackageManifest).

Lemma environment_packages_run (w w1 : World) (settings : Settings)
    (coll : PackageCollection) :
  ext_load_settings (w_settings w) = Ok settings ->
  packages_load settings (log_event EvLoadSettings w) = (Done (Ok coll), w1) ->
  environment_packages ext_load_settings packages_load w
  = (panic_on_none (mapM (tauri_package_of (pc_version coll)) (enumerate (pc_packages coll))),
     w1).
Proof.
  intros Hload Hpl. unfold environment_packages, settings_load, bind at 1.
  simpl. rewrite Hload. simpl. unfold bind at 1. rewrite Hpl.
  unfold bind, try_. simpl.
  apply (collect_map_pure _ _ (TauriPackage_new_pure (pc_version coll))).
Qed.

(** [environment_packages] lists the snapshot's packages in order: the
    [i]-th entry carries index [i], the snapshot's version, the package's
    manifest, and the source [LocalUser] exactly for packages that come from
    no repository. *)
Theorem environment_packages_enumerated (w w1 w' : World) (settings : Settings)
    (coll : PackageCollection) (res : list TauriPackage) :
  ext_load_settings (w_settings w) = Ok settings ->
  packages_load settings (log_event EvLoadSettings w) = (Done (Ok coll), w1) ->
  environment_packages ext_load_settings packages_load w = (Done res, w') ->
  length res = length (pc_packages coll) /\
  forall i p, pc_packages coll !! i = Some p ->
    exists t, res !! i = Some t /\ index t = i /\ env_version t = pc_version coll /\
              base t = pi_package_json p /\ (source t = LocalUser <-> pi_repo p = None).
Proof.
  intros Hload Hpl Hrun.
  rewrite (environment_packages_run w w1 settings coll Hload Hpl) in Hrun.
  destruct (mapM _ _) as [ts|] eqn:Hm; simpl in Hrun; [|discriminate].
  injection Hrun as <- _. apply mapM_Some in Hm.
  split.
  - rewrite <- (Forall2_length _ _ _ Hm). apply length_enumerate.
  - intros i p Hp. apply enumerate_lookup in Hp.
    destruct (Forall2_lookup_l _ _ _ _ _ Hm Hp) as (t & Ht & Hg).
    exists t. split; [done|].
    unfold tauri_package_of in Hg; simpl in Hg.
    destruct (package_source p) as [s|] eqn:Hs; [|discriminate].
    injection Hg as <-. simpl. split; [done|]. split; [done|]. split; [done|].
    unfold package_source in Hs. destruct (pi_repo p) as [r|].
    + destruct (option_or _ _); [|discriminate]. injection Hs as <-. split; discriminate.
    + injection Hs as <-. done.
Qed.

(** Once settings and snapshot are loaded, [environment_packages] panics
    exactly when some package comes from a repository that has neither an
    id nor a url (the [unwrap] in [TauriPackage::new]); otherwise it
    returns. *)
Theorem environment_packages_panics_iff (w w1 : World) (settings : Settings)
    (coll : PackageCollection) :
  ext_load_settings (w_settings w) = Ok settings ->
  packages_load settings (log_event EvLoadSettings w) = (Done (Ok coll), w1) ->
  ((exists msg, fst (environment_packages ext_load_settings packages_load w)
                = Abort (Panicked msg)) <->
   exists p r, p ∈ pc_packages coll /\ pi_repo p = Some r /\
               lcr_id r = None /\ lcr_url r = None) /\
  ((exists res, fst (environment_packages ext_load_settings packages_load w) = Done res) \/
   exists msg, fst (environment_packages ext_load_settings packages_load w)
               = Abort (Panicked msg)).
Proof.
  intros Hload Hpl.
  rewrite (environment_packages_run w w1 settings coll Hload Hpl). simpl.
  split.
  - destruct (mapM _ _) as [ts|] eqn:Hm; simpl.
    + split; [intros [msg Hmsg]; discriminate|].
      intros (p & r & Hp & Hr & Hi & Hu). exfalso.
      apply list_elem_of_lookup in Hp as [i Hi'].
      apply enumerate_lookup in Hi'. apply mapM_Some in Hm.
      destruct (Forall2_lookup_l _ _ _ _ _ Hm Hi') as (t & _ & Hg).
      unfold tauri_package_of in Hg; simpl in Hg.
      rewrite (proj2 (package_source_None p)) in Hg; [discriminate|].
      by exists r.
    + split; [intros _|intros _; by eexists].
      apply mapM_None, Exists_exists in Hm as ([i p] & Hin & Hg).
      unfold tauri_package_of in Hg; simpl in Hg.
      destruct (package_source p) eqn:Hs; [discriminate|].
      apply package_source_None in Hs as (r & Hr & Hi & Hu).
      exists p, r. split; [|done].
      apply (elem_of_enumerate _ (i, p) Hin).
  - destruct (mapM _ _); simpl; [left; by eexists | right; by eexists].
Qed.

Lemma environment_repositories_info_run (config : GuiConfig) (w : World)
    (settings : Settings) :
  ext_load_settings (w_settings w) = Ok settings ->
  environment_repositories_info ext_load_settings settings_show_prerelease_packages
    config w
  = (match mapM (fun x => match option_or (repo_id x) (repo_url x) with
                          | Some id => Some {| ur_id := id; ur_url := repo_url x;
                                               ur_display_name := default id (repo_name x) |}
                          | None => None
                          end) (user_repos settings) with
     | Some us => Done {| user_repositories := us;
                          hidden_user_repositories := gui_hidden_repositories config;
                          info_hide_local_user_packages := hide_local_user_packages config;
                          show_prerelease_packages := settings_show_prerelease_packages settings |}
     | None => Abort (Panicked unwrap_none_msg)
     end, log_event EvLoadSettings w).
Proof.
  intros Hload. unfold environment_repositories_info, settings_load, bind at 1.
  simpl. rewrite Hload. simpl. unfold bind at 1.
  rewrite (collect_map_pure _ _ TauriUserRepository_of_pure).
  by destruct (mapM _ _).
Qed.

(** [environment_repositories_info] only reads: once the settings are loaded
    it panics exactly when a user repository has neither an id nor a url,
    and otherwise lists one entry per user repository in order, whose id is
    the repository's id, else its url, and whose display name is its name,
    else that id. *)
Theorem environment_repositories_info_entries (config : GuiConfig) (w w' : World)
    (settings : Settings) (o : outcome TauriRepositoriesInfo) :
  ext_load_settings (w_settings w) = Ok settings ->
  environment_repositories_info ext_load_settings settings_show_prerelease_packages
    config w = (o, w') ->
  w' = log_event EvLoadSettings w /\
  ((exists msg, o = Abort (Panicked msg)) <->
   exists r, r ∈ user_repos settings /\ repo_id r = None /\ repo_url r = None) /\
  forall info, o = Done info ->
    Forall2 (fun r u => option_or (repo_id r) (repo_url r) = Some (ur_id u) /\
                        ur_url u = repo_url r /\
                        ur_display_name u = default (ur_id u) (repo_name r))
      (user_repos settings) (user_repositories info).
Proof.
  intros Hload Hrun. rewrite (environment_repositories_info_run config w settings Hload) in Hrun.
  injection Hrun as <- <-. split; [done|].
  destruct (mapM _ _) as [us|] eqn:Hm.
  - apply mapM_Some in Hm. split.
    + split; [intros [msg Hmsg]; discriminate|].
      intros (r & Hr & Hi & Hu). exfalso.
      apply list_elem_of_lookup in Hr as [i Hi'].
      destruct (Forall2_lookup_l _ _ _ _ _ Hm Hi') as (u & _ & Hg).
      simpl in Hg. unfold option_or in Hg. rewrite Hi, Hu in Hg. discriminate.
    + intros info Hinfo. injection Hinfo as <-. simpl.
      eapply Forall2_impl; [exact Hm|]. intros r u Hg. cbv beta in Hg.
      destruct (option_or _ _) as [id|]; [|discriminate]. injection Hg as <-. done.
  - split; [split; [intros _|intros _; by eexists]|intros info Hinfo; discriminate].
    apply mapM_None, Exists_exists in Hm as (r & Hin & Hg).
    destruct (option_or _ _) as [id|] eqn:Ho; [discriminate|].
    exists r. split; [done|]. unfold option_or in Ho.
    destruct (repo_id r); [discriminate|]. done.
Qed.


End ListingProperties.

(** *** Mutating commands, single download and batch import *)

(** What [environment_remove_repository] leaves in the settings. *)
Definition remove_kept (id : string) (s : Settings) : Settings :=
  {| user_repos := filter (fun r => negb (option_eqb_string (repo_id r) id)) (user_repos s);
     ignore_curated_repository := ignore_curated_repository s;
     ignore_official_repository := ignore_official_repository s;
     user_packages := user_packages s |}.

(** Actions that leave the package cache as it is. *)
Definition keeps_cache {A} (m : M A) : Prop := forall w, w_cache (snd (m w)) = w_cache w.

(** Runs whose outcome is not an accepted value leave the cache as it is. *)
Definition cache_kept_unless {A} (ok : A -> bool) (m : M A) : Prop :=
  forall w o w', m w = (o, w') -> (exists a, o = Done a /\ ok a = true) \/ w_cache w' = w_cache w.

Lemma keeps_ret {A} (x : A) : keeps_cache (ret x).
Proof. intros w. done. Qed.

Lemma keeps_bind {A B} (m : M A) (k : A -> M B) :
  keeps_cache m -> (forall a, keeps_cache (k a)) -> keeps_cache (bind m k).
Proof.
  intros Hm Hk w. specialize (Hm w). unfold bind.
  destruct (m w) as [[a|f] w1]; simpl in *; [by rewrite Hk|done].
Qed.

Lemma keeps_try {A} (r : result A RustError) : keeps_cache (try_ r).
Proof. intros w. unfold try_. by destruct r. Qed.

Lemma keeps_cache_kept_unless {A} (ok : A -> bool) (m : M A) :
  keeps_cache m -> cache_kept_unless ok m.
Proof. intros H w o w' Hm. right. specialize (H w). rewrite Hm in H. exact H. Qed.

Lemma kept_unless_bind {A B} (ok : B -> bool) (m : M A) (k : A -> M B) :
  keeps_cache m -> (forall a, cache_kept_unless ok (k a)) -> cache_kept_unless ok (bind m k).
Proof.
  intros Hm Hk w o w' Hrun. unfold bind in Hrun. specialize (Hm w).
  destruct (m w) as [[a|f] w1]; simpl in Hm.
  - destruct (Hk a w1 o w' Hrun) as [H|H]; [by left | right; congruence].
  - injection Hrun as <- <-. by right.
Qed.

Lemma kept_unless_clear {B} (ok : B -> bool) (x : B) :
  ok x = true -> cache_kept_unless ok (let* _ := clear_cache in ret x).
Proof.
  intros Hx w o w' H. unfold bind, clear_cache, ret in H. injection H as <- _.
  left. by exists x.
Qed.

Lemma kept_unless_ret {A} (ok : A -> bool) (x : A) : cache_kept_unless ok (ret x).
Proof. apply keeps_cache_kept_unless, keeps_ret. Qed.

Lemma kept_unless_map {A} (ok : A -> bool) (m : M A) :
  cache_kept_unless ok m -> cache_kept_unless (fun b : bool => b) (let* r := m in ret (ok r)).
Proof.
  intros Hm w o w' Hrun. unfold bind, ret in Hrun.
  destruct (m w) as [[a|f] w1] eqn:E.
  - injection Hrun as <- <-. destruct (Hm w _ _ E) as [(a' & Ha & Hok)|H].
    + injection Ha as <-. left. by exists (ok a).
    + by right.
  - injection Hrun as <- <-. destruct (Hm w _ _ E) as [(a' & Ha & _)|H];
      [discriminate|by right].
Qed.

Ltac not_in_list :=
  let H := fresh in
  intros H; repeat (apply elem_of_cons in H as [H|H]; [discriminate|]);
  by apply elem_of_nil in H.

Lemma log_event_single (e : Event) (w : World) : log_event e w = log_events [e] w.
Proof. reflexivity. Qed.

Section CommandProperties.

Variable parse_url : string -> option Url.
Variable remote_download : Url -> Headers -> result RemoteRepository string.
Variable ext_load_settings : Settings -> result Settings RustError.
Variable ext_load_settings_mut : Settings -> result Settings RustError.
Variable ext_save_settings : Settings -> result unit RustError.
Variable ext_add_remote_repo : Settings -> Url -> Headers -> result Settings RustError.
Variable ext_remove_file : string -> result unit RustError.
Variable ext_clear_package_cache : result unit RustError.
Variable ext_add_user_package : Settings -> string -> AddUserPackageResult * Settings.
Variable ext_remove_user_package : Settings -> string -> Settings.
Variable pick_folder : option PickedPath.
Variable settings_show_prerelease_packages : Settings -> bool.

Lemma join_all_remove_files (l : list UserRepoSetting) (w : World) :
  exists rs,
    join_all (fun x => remove_file_ok ext_remove_file (repo_local_path x)) l w
    = (Done rs, log_events ((fun r => EvRemoveFile (repo_local_path r)) <$> l) w).
Proof.
  revert w. induction l as [|x l IH]; intros w.
  - exists []. by rewrite log_events_nil.
  - simpl. unfold bind at 1, remove_file_ok at 1.
    destruct (IH (log_event (EvRemoveFile (repo_local_path x)) w)) as [rs Hrs].
    destruct (ext_remove_file (repo_local_path x)) as [u|e];
      unfold bind; rewrite Hrs; unfold ret; eexists;
      rewrite log_event_single, log_events_app; reflexivity.
Qed.

Lemma environment_remove_repository_run (id : string) (w : World) (s : Settings) :
  ext_load_settings_mut (w_settings w) = Ok s ->
  environment_remove_repository ext_load_settings_mut ext_save_settings ext_remove_file id w
  = match ext_save_settings (remove_kept id s) with
    | Ok _ => (Done tt,
               {| w_log := w_log w ++ EvLoadSettingsMut ::
                     ((fun r => EvRemoveFile (repo_local_path r)) <$>
                        filter (fun r => option_eqb_string (repo_id r) id) (user_repos s))
                     ++ [EvSaveSettings; EvClearCache];
                  w_cache := CacheEmpty; w_settings := remove_kept id s |})
    | Err e => (Abort (Aborted e),
               {| w_log := w_log w ++ EvLoadSettingsMut ::
                     ((fun r => EvRemoveFile (repo_local_path r)) <$>
                        filter (fun r => option_eqb_string (repo_id r) id) (user_repos s))
                     ++ [EvSaveSettings];
                  w_cache := w_cache w; w_settings := remove_kept id s |})
    end.
Proof.
  intros Hload. unfold environment_remove_repository, bind at 1, settings_load_mut.
  simpl. rewrite Hload. unfold bind at 1, remove_repo. simpl.
  unfold bind at 1.
  match goal with |- context [join_all ?f ?l ?w0] =>
    destruct (join_all_remove_files l w0) as [rs Hj] end.
  rewrite Hj.
  unfold bind, settings_save, try_, clear_cache, ret. simpl.
  destruct (ext_save_settings _) as [u|e]; simpl;
    unfold remove_kept; unfold log_event, log_events, set_settings; simpl;
    rewrite <- !List.app_assoc; reflexivity.
Qed.

Lemma add_all_trace (repositories : list TauriRepositoryDescriptor) (w w' : World)
    (o : outcome unit) :
  add_all ext_add_remote_repo repositories w = (o, w') ->
  exists k, k <= length repositories /\
    w_log w' = w_log w ++ ((fun d => EvAddRemoteRepo (desc_url d)) <$> take k repositories) /\
    w_cache w' = w_cache w /\
    ((o = Done tt /\ k = length repositories) \/ exists f, o = Abort f).
Proof.
  revert w. induction repositories as [|d rest IH]; intros w Hrun.
  - simpl in Hrun. unfold ret in Hrun. injection Hrun as <- <-.
    exists 0. rewrite app_nil_r. split; [done|]. split; [done|]. split; [done|]. by left.
  - simpl in Hrun. unfold bind, add_remote_repo in Hrun.
    destruct (ext_add_remote_repo _ _ _) as [s|e].
    + destruct (IH _ Hrun) as (k & Hk & Hlog & Hc & Ho).
      exists (S k). simpl. split; [lia|]. split.
      * rewrite Hlog. simpl. by rewrite <- List.app_assoc.
      * split; [done|]. destruct Ho as [[-> ->]|Ho]; [by left|by right].
    + injection Hrun as <- <-. exists 1. simpl. split; [lia|].
      split; [done|]. split; [done|]. right. by eexists.
Qed.

(** [environment_remove_repository], once the settings are loaded, removes
    from them exactly the user repositories whose id is the given one,
    keeping the others in order, and tries to delete the local file of each
    removed repository in order; a failed deletion is ignored.  Then it
    saves: on success it clears the cache and returns, on a save error it
    aborts with that error and keeps the cache. *)
Theorem environment_remove_repository_effects (id : string) (w w' : World)
    (s : Settings) (o : outcome unit) :
  ext_load_settings_mut (w_settings w) = Ok s ->
  environment_remove_repository ext_load_settings_mut ext_save_settings ext_remove_file
    id w = (o, w') ->
  user_repos (w_settings w')
  = filter (fun r => negb (option_eqb_string (repo_id r) id)) (user_repos s) /\
  exists tail,
    w_log w' = w_log w ++ EvLoadSettingsMut ::
      ((fun r => EvRemoveFile (repo_local_path r)) <$>
         filter (fun r => option_eqb_string (repo_id r) id) (user_repos s))
      ++ EvSaveSettings :: tail /\
    match ext_save_settings (w_settings w') with
    | Ok _ => o = Done tt /\ tail = [EvClearCache]
    | Err e => o = Abort (Aborted e) /\ tail = [] /\ w_cache w' = w_cache w
    end.
Proof.
  intros Hload Hrun. rewrite (environment_remove_repository_run id w s Hload) in Hrun.
  destruct (ext_save_settings (remove_kept id s)) as [u|e] eqn:Hs;
    injection Hrun as <- <-; simpl; rewrite Hs; (split; [done|]).
  - exists [EvClearCache]. done.
  - exists []. done.
Qed.

(** A user repository without an id is listed by
    [environment_repositories_info] under its url, yet
    [environment_remove_repository] called with that listed id keeps it:
    removal matches the stored id only. *)
Theorem repository_without_id_not_removable_by_listed_id (config : GuiConfig)
    (r : UserRepoSetting) (u : Url) (w w1 w2 w3 : World) (settings s : Settings)
    (info : TauriRepositoriesInfo) (o : outcome unit) :
  repo_id r = None -> repo_url r = Some u ->
  ext_load_settings (w_settings w) = Ok settings -> r ∈ user_repos settings ->
  environment_repositories_info ext_load_settings settings_show_prerelease_packages
    config w = (Done info, w1) ->
  ext_load_settings_mut (w_settings w2) = Ok s -> r ∈ user_repos s ->
  environment_remove_repository ext_load_settings_mut ext_save_settings ext_remove_file
    u w2 = (o, w3) ->
  (exists ur, ur ∈ user_repositories info /\ ur_id ur = u /\ ur_url ur = Some u) /\
  r ∈ user_repos (w_settings w3).
Proof.
  intros Hid Hurl Hload Hr Hinfo Hload2 Hr2 Hrm. split.
  - rewrite (environment_repositories_info_run ext_load_settings
               settings_show_prerelease_packages config w settings Hload) in Hinfo.
    destruct (mapM _ _) as [us|] eqn:Hm; [|discriminate].
    injection Hinfo as <- _. simpl. apply mapM_Some in Hm.
    apply list_elem_of_lookup in Hr as [i Hi].
    destruct (Forall2_lookup_l _ _ _ _ _ Hm Hi) as (ur & Hur & Hg).
    cbv beta in Hg. unfold option_or in Hg. rewrite Hid, Hurl in Hg.
    injection Hg as <-. eexists. split; [apply list_elem_of_lookup; by eexists|].
    done.
  - rewrite (environment_remove_repository_run u w2 s Hload2) in Hrm.
    assert (Hkept : r ∈ user_repos (remove_kept u s)).
    { unfold remove_kept. simpl. apply list_elem_of_filter. rewrite Hid. done. }
    destruct (ext_save_settings _); injection Hrm as _ <-; exact Hkept.
Qed.


Lemma keeps_settings_load_mut : keeps_cache (settings_load_mut ext_load_settings_mut).
Proof. intros w. unfold settings_load_mut. by destruct (ext_load_settings_mut _). Qed.

Lemma keeps_settings_save : keeps_cache (settings_save ext_save_settings).
Proof. intros w. unfold settings_save. apply (keeps_try _ (log_event EvSaveSettings w)). Qed.

Lemma keeps_add_remote_repo (url : Url) (headers : Headers) :
  keeps_cache (add_remote_repo ext_add_remote_repo url headers).
Proof. intros w. unfold add_remote_repo. by destruct (ext_add_remote_repo _ _ _). Qed.

Lemma keeps_add_all (repositories : list TauriRepositoryDescriptor) :
  keeps_cache (add_all ext_add_remote_repo repositories).
Proof.
  induction repositories as [|d rest IH]; simpl; [apply keeps_ret|].
  apply keeps_bind; [apply keeps_add_remote_repo|intros _; exact IH].
Qed.

Lemma keeps_join_all_remove (l : list UserRepoSetting) :
  keeps_cache (join_all (fun x => remove_file_ok ext_remove_file (repo_local_path x)) l).
Proof.
  intros w. destruct (join_all_remove_files l w) as [rs ->]. done.
Qed.

Lemma keeps_remove_repo (pred : UserRepoSetting -> bool) : keeps_cache (remove_repo pred).
Proof. intros w. done. Qed.

Lemma keeps_settings_add_user_package (path : string) :
  keeps_cache (settings_add_user_package ext_add_user_package path).
Proof. intros w. unfold settings_add_user_package. by destruct (ext_add_user_package _ _). Qed.

Lemma keeps_settings_remove_user_package (path : string) :
  keeps_cache (settings_remove_user_package ext_remove_user_package path).
Proof. intros w. done. Qed.

Lemma keeps_blocking_pick_folder : keeps_cache (blocking_pick_folder pick_folder).
Proof. intros w. done. Qed.

Lemma kept_unless_commands (op : MutatingOp) :
  cache_kept_unless (fun b : bool => b)
    (run_mutating_op parse_url ext_load_settings_mut ext_save_settings ext_add_remote_repo
       ext_remove_file ext_clear_package_cache ext_add_user_package
       ext_remove_user_package pick_folder op).
Proof.
  destruct op; simpl.
  - apply (kept_unless_map (fun r => match r with AddSuccess => true | AddBadUrl => false end)).
    unfold environment_add_repository. destruct (parse_url url); [|apply kept_unless_ret].
    apply kept_unless_bind; [apply keeps_settings_load_mut|intros _].
    apply kept_unless_bind; [apply keeps_add_remote_repo|intros _].
    apply kept_unless_bind; [apply keeps_settings_save|intros _].
    by apply kept_unless_clear.
  - apply (kept_unless_map (fun _ => true)).
    unfold environment_remove_repository.
    apply kept_unless_bind; [apply keeps_settings_load_mut|intros _].
    apply kept_unless_bind; [apply keeps_remove_repo|intros removed].
    apply kept_unless_bind; [apply keeps_join_all_remove|intros _].
    apply kept_unless_bind; [apply keeps_settings_save|intros _].
    by apply kept_unless_clear.
  - apply (kept_unless_map (fun _ => true)).
    unfold environment_import_add_repositories.
    apply kept_unless_bind; [apply keeps_settings_load_mut|intros _].
    apply kept_unless_bind; [apply keeps_add_all|intros _].
    apply kept_unless_bind; [apply keeps_settings_save|intros _].
    by apply kept_unless_clear.
  - apply (kept_unless_map (fun r => match r with Successful => true | _ => false end)).
    unfold environment_add_user_package_with_picker.
    apply kept_unless_bind; [apply keeps_blocking_pick_folder|intros picked].
    destruct picked as [[project_path|]|]; [|apply kept_unless_ret|apply kept_unless_ret].
    apply kept_unless_bind; [apply keeps_settings_load_mut|intros _].
    apply kept_unless_bind; [apply keeps_settings_add_user_package|intros res].
    destruct res.
    + apply kept_unless_bind; [apply keeps_settings_save|intros _].
      by apply kept_unless_clear.
    + apply keeps_cache_kept_unless. intros w. done.
    + apply kept_unless_ret.
    + apply kept_unless_ret.
  - apply (kept_unless_map (fun _ => true)).
    unfold environment_remove_user_packages.
    apply kept_unless_bind; [apply keeps_settings_load_mut|intros _].
    apply kept_unless_bind; [apply keeps_settings_remove_user_package|intros _].
    apply kept_unless_bind; [apply keeps_settings_save|intros _].
    by apply kept_unless_clear.
  - apply (kept_unless_map (fun _ => true)).
    unfold environment_clear_package_cache.
    apply kept_unless_bind; [intros w; apply (keeps_try _ (log_event EvClearPackageCacheFiles w))|intros _].
    by apply kept_unless_clear.
Qed.

(** A mutating command that does not complete successfully (it aborts with
    an error or a panic, rejects the url, or the user-package picker answers
    anything but [Successful]) leaves the package cache as it was. *)
Theorem mutating_ops_failure_keeps_cache (op : MutatingOp) (w w' : World)
    (o : outcome bool) :
  run_mutating_op parse_url ext_load_settings_mut ext_save_settings ext_add_remote_repo
    ext_remove_file ext_clear_package_cache ext_add_user_package
    ext_remove_user_package pick_folder op w = (o, w') ->
  o <> Done true -> w_cache w' = w_cache w.
Proof.
  intros Hrun Hne. destruct (kept_unless_commands op w o w' Hrun) as [(b & -> & Hb)|H].
  - destruct b; [done|discriminate].
  - exact H.
Qed.

(** The user-package picker saves the settings only when it answers
    [Successful]: for every other answer the settings are not saved and the
    cache is kept. *)
Theorem add_user_package_with_picker_saves_only_on_success (w w' : World)
    (r : TauriAddUserPackageWithPickerResult) :
  environment_add_user_package_with_picker ext_load_settings_mut ext_save_settings
    ext_add_user_package pick_folder w = (Done r, w') ->
  r <> Successful ->
  w_cache w' = w_cache w /\ exists es, w_log w' = w_log w ++ es /\ EvSaveSettings ∉ es.
Proof.
  intros Hrun Hne.
  unfold environment_add_user_package_with_picker, bind, blocking_pick_folder,
    settings_load_mut, settings_add_user_package, settings_save, try_,
    clear_cache, ret in Hrun.
  simpl in Hrun. destruct pick_folder as [[p|]|].
  - destruct (ext_load_settings_mut _) as [s|e]; [|discriminate].
    simpl in Hrun. destruct (ext_add_user_package s p) as [res s'].
    destruct res; simpl in Hrun.
    + destruct (ext_save_settings _); [|discriminate]. by injection Hrun as <- _.
    + discriminate.
    + injection Hrun as <- <-. split; [done|].
      exists [EvPickFolder; EvLoadSettingsMut; EvAddUserPackage p]. simpl.
      split; [by rewrite <- !List.app_assoc|not_in_list].
    + injection Hrun as <- <-. split; [done|].
      exists [EvPickFolder; EvLoadSettingsMut; EvAddUserPackage p]. simpl.
      split; [by rewrite <- !List.app_assoc|not_in_list].
  - injection Hrun as <- <-. split; [done|]. exists [EvPickFolder]. split; [done|not_in_list].
  - injection Hrun as <- <-. split; [done|]. exists [EvPickFolder]. split; [done|not_in_list].
Qed.

(** [environment_download_repository] never changes the settings or the
    package cache; its only effects are a settings load and, for a url that
    parses, at most one network fetch of that url. *)
Theorem environment_download_repository_effects (url : string) (headers : Headers)
    (w w' : World) (o : outcome TauriDownloadRepository) :
  environment_download_repository parse_url remote_download ext_load_settings
    url headers w = (o, w') ->
  w_settings w' = w_settings w /\ w_cache w' = w_cache w /\
  exists es, w_log w' = w_log w ++ es /\
    (es = [] \/ es = [EvLoadSettings] \/
     exists u, parse_url url = Some u /\ es = [EvLoadSettings; EvFetch u]).
Proof.
  intros Hrun. unfold environment_download_repository in Hrun.
  destruct (parse_url url) as [u|] eqn:Hp.
  - unfold bind at 1, settings_load in Hrun. simpl in Hrun.
    destruct (ext_load_settings (w_settings w)) as [s|e]; simpl in Hrun.
    + unfold bind in Hrun. rewrite download_result_spec in Hrun.
      unfold try_ in Hrun. injection Hrun as _ <-.
      split; [done|]. split; [done|].
      destruct (decide _); eexists; (split; [unfold log_events; simpl; by rewrite <- List.app_assoc|]).
      * right; left. done.
      * right; right. by exists u.
    + injection Hrun as _ <-. split; [done|]. split; [done|].
      exists [EvLoadSettings]. split; [done|]. right; left. done.
  - unfold ret in Hrun. injection Hrun as _ <-. split; [done|]. split; [done|].
    exists []. rewrite app_nil_r. split; [done|]. by left.
Qed.

End CommandProperties.

(** *** Batch import results *)

Lemma dedup_at_success (seen : gset string) (o : TauriDownloadRepository)
    (v : TauriRemoteRepositoryInfo) :
  dedup_at seen o = Success v -> o = Success v /\ info_id v ∉ seen.
Proof.
  intros H. destruct o as [| |m|v']; simpl in H; try discriminate.
  destruct (decide _) as [|Hn]; [discriminate|]. injection H as <-. done.
Qed.

Lemma dedup_pass_success_ids (seen : gset string)
    (l : list (TauriRepositoryDescriptor * TauriDownloadRepository)) :
  (forall i d v, dedup_pass seen l !! i = Some (d, Success v) -> info_id v ∉ seen) /\
  (forall i j d d' v v', i <> j ->
     dedup_pass seen l !! i = Some (d, Success v) ->
     dedup_pass seen l !! j = Some (d', Success v') -> info_id v <> info_id v').
Proof.
  split.
  - intros i d v H. rewrite dedup_pass_lookup in H.
    destruct (l !! i) as [[d0 o]|]; simpl in H; [|discriminate].
    injection H as _ Hd. apply dedup_at_success in Hd as [_ Hn].
    intros Hs. apply Hn. by apply elem_of_union_l.
  - assert (Hlt : forall i j d d' v v', j < i ->
              dedup_pass seen l !! i = Some (d, Success v) ->
              dedup_pass seen l !! j = Some (d', Success v') -> info_id v <> info_id v').
    { intros i j d d' v v' Hji Hi Hj. rewrite dedup_pass_lookup in Hi, Hj.
      destruct (l !! i) as [[d0 o]|]; simpl in Hi; [|discriminate].
      destruct (l !! j) as [[d1 o1]|] eqn:Hlj; simpl in Hj; [|discriminate].
      injection Hi as _ Hi. injection Hj as _ Hj.
      apply dedup_at_success in Hi as [_ Hn]. apply dedup_at_success in Hj as [-> _].
      intros He. apply Hn. apply elem_of_union_r.
      unfold success_ids. rewrite elem_of_list_to_set, list_elem_of_omap.
      exists (d1, Success v'). split; [|simpl; by rewrite He].
      apply list_elem_of_lookup. exists j. by rewrite lookup_take_lt. }
    intros i j d d' v v' Hne Hi Hj. destruct (decide (j < i)).
    + by apply (Hlt i j d d' v v').
    + intros He. apply (Hlt j i d' d v' v); [lia|done|done|done].
Qed.

Section BatchProperties.

Variable remote_download : Url -> Headers -> result RemoteRepository string.
Variable ext_load_settings : Settings -> result Settings RustError.

(** Whatever the completion order and the channel's liveness, the results of
    a batch import that returns carry pairwise distinct ids in their
    [Success] outcomes, none of which is an id the settings already knew. *)
Theorem import_results_success_ids_distinct (channel_open : nat -> bool)
    (sched : list nat) (repositories : list TauriRepositoryDescriptor)
    (w w' : World) results :
  environment_import_download_repositories remote_download ext_load_settings
    channel_open sched repositories w = (Done results, w') ->
  exists settings, ext_load_settings (w_settings w) = Ok settings /\
    (forall i d v, results !! i = Some (d, Success v) ->
       info_id v ∉ user_repo_ids settings) /\
    (forall i j d d' v v', i <> j ->
       results !! i = Some (d, Success v) -> results !! j = Some (d', Success v') ->
       info_id v <> info_id v').
Proof.
  intros Hrun. unfold environment_import_download_repositories in Hrun.
  apply bind_done in Hrun as (settings & w1 & Hload & Hrun).
  unfold settings_load, try_ in Hload. simpl in Hload.
  destruct (ext_load_settings (w_settings w)) as [s|e]; [|discriminate].
  injection Hload as <- _. exists s. split; [done|].
  apply bind_done in Hrun as ([c slots] & w2 & _ & Hrun).
  unfold ret in Hrun. injection Hrun as <- _.
  apply dedup_pass_success_ids.
Qed.

End BatchProperties.

(** *** GUI configuration *)

Lemma indexset_insert_spec (x : string) (l : list string) :
  NoDup l ->
  NoDup (indexset_insert x l) /\ x ∈ indexset_insert x l /\
  l `prefix_of` indexset_insert x l /\
  length (indexset_insert x l) <= S (length l) /\
  (x ∈ l -> indexset_insert x l = l).
Proof.
  intros Hnd. unfold indexset_insert. destruct (decide (x ∈ l)) as [Hin|Hnin].
  - split_and!; [done|done|done|lia|done].
  - split_and!.
    + apply NoDup_app. split; [done|]. split; [|apply NoDup_singleton].
      intros y Hy Hy'. apply list_elem_of_singleton in Hy'. subst y. done.
    + apply elem_of_app. right. by apply list_elem_of_singleton.
    + by exists [x].
    + rewrite length_app. simpl. lia.
    + done.
Qed.

Lemma indexset_shift_remove_spec (x : string) (l : list string) :
  NoDup l ->
  NoDup (indexset_shift_remove x l) /\ (x ∉ indexset_shift_remove x l) /\
  (forall y, y <> x -> y ∈ indexset_shift_remove x l <-> y ∈ l) /\
  indexset_shift_remove x l `sublist_of` l.
Proof.
  induction l as [|y l IH]; intros Hnd; simpl.
  - split_and!; [constructor|intros H; by apply elem_of_nil in H|done|done].
  - apply NoDup_cons in Hnd as [Hy Hnd].
    destruct (String.eqb_spec y x) as [->|Hne].
    + split_and!; [done|done| |by apply sublist_cons].
      intros z Hz. rewrite elem_of_cons. naive_solver.
    + destruct (IH Hnd) as (H1 & H2 & H3 & H4). split_and!.
      * constructor; [|done]. rewrite (H3 y Hne). done.
      * rewrite elem_of_cons. intros [He|Hin]; [by apply Hne|done].
      * intros z Hz. rewrite !elem_of_cons, (H3 z Hz). done.
      * by apply sublist_skip.
Qed.

Lemma indexset_shift_remove_snoc (x : string) (l : list string) :
  x ∉ l -> indexset_shift_remove x (l ++ [x]) = l.
Proof.
  induction l as [|y l IH]; intros Hx; simpl.
  - by rewrite String.eqb_refl.
  - destruct (String.eqb_spec y x) as [->|Hne].
    + exfalso. apply Hx. apply elem_of_cons. by left.
    + f_equal. apply IH. intros Hin. apply Hx. apply elem_of_cons. by right.
Qed.

Section ConfigProperties.

Variable config_load_mut : GuiConfig -> result GuiConfig RustError.
Variable config_save : GuiConfig -> result unit RustError.

(** Hiding a repository keeps the hidden list free of duplicates: the
    repository is in it afterwards, the previous entries stay in front in
    their order, at most one entry is appended, and hiding an already hidden
    repository changes nothing; the result is that of saving the new
    config. *)
Theorem environment_hide_repository_inserts (repository : string)
    (config c config' : GuiConfig) (r : result unit RustError) :
  config_load_mut config = Ok c ->
  environment_hide_repository config_load_mut config_save repository config = (r, config') ->
  NoDup (gui_hidden_repositories c) ->
  NoDup (gui_hidden_repositories config') /\
  repository ∈ gui_hidden_repositories config' /\
  gui_hidden_repositories c `prefix_of` gui_hidden_repositories config' /\
  length (gui_hidden_repositories config') <= S (length (gui_hidden_repositories c)) /\
  (repository ∈ gui_hidden_repositories c ->
   gui_hidden_repositories config' = gui_hidden_repositories c) /\
  hide_local_user_packages config' = hide_local_user_packages c /\
  r = config_save config'.
Proof.
  intros Hl Hrun Hnd. unfold environment_hide_repository, config_update in Hrun.
  rewrite Hl in Hrun. injection Hrun as <- <-. simpl.
  destruct (indexset_insert_spec repository _ Hnd) as (H1 & H2 & H3 & H4 & H5).
  split_and!; done.
Qed.

(** Showing a repository on a duplicate-free hidden list removes it and
    only it, keeping the others in their order; the result is that of saving
    the new config. *)
Theorem environment_show_repository_removes (repository : string)
    (config c config' : GuiConfig) (r : result unit RustError) :
  config_load_mut config = Ok c ->
  environment_show_repository config_load_mut config_save repository config = (r, config') ->
  NoDup (gui_hidden_repositories c) ->
  NoDup (gui_hidden_repositories config') /\
  (repository ∉ gui_hidden_repositories config') /\
  (forall y, y <> repository ->
     y ∈ gui_hidden_repositories config' <-> y ∈ gui_hidden_repositories c) /\
  gui_hidden_repositories config' `sublist_of` gui_hidden_repositories c /\
  hide_local_user_packages config' = hide_local_user_packages c /\
  r = config_save config'.
Proof.
  intros Hl Hrun Hnd. unfold environment_show_repository, config_update in Hrun.
  rewrite Hl in Hrun. injection Hrun as <- <-. simpl.
  destruct (indexset_shift_remove_spec repository _ Hnd) as (H1 & H2 & H3 & H4).
  split_and!; done.
Qed.

(** When loading returns the in-memory config, hiding a repository that
    was not hidden and then showing it again gives back the original config,
    hidden list order included, whether or not the saves succeed. *)
Theorem hide_then_show_restores_config (repository : string)
    (config config1 config2 : GuiConfig) (r1 r2 : result unit RustError) :
  (forall c, config_load_mut c = Ok c) ->
  repository ∉ gui_hidden_repositories config ->
  environment_hide_repository config_load_mut config_save repository config = (r1, config1) ->
  environment_show_repository config_load_mut config_save repository config1 = (r2, config2) ->
  config2 = config.
Proof.
  intros Hl Hnin Hhide Hshow.
  unfold environment_hide_repository, config_update in Hhide. rewrite Hl in Hhide.
  injection Hhide as _ <-.
  unfold environment_show_repository, config_update in Hshow. rewrite Hl in Hshow.
  injection Hshow as _ <-. simpl.
  unfold indexset_insert. rewrite decide_False by exact Hnin.
  rewrite indexset_shift_remove_snoc by exact Hnin. by destruct config.
Qed.

End ConfigProperties.

(** ** Witnesses and counterexamples on the concrete runs *)

Module Witnesses.

Import Examples.
Local Open Scope string_scope.

Lemma download_known_url_no_fetch_witness :
  "https://b/" ∈ user_repo_urls settings /\
  download_one_repository net "https://b/" [] (user_repo_urls settings)
    (user_repo_ids settings) w0 = (Done (Ok Duplicated), w0).
Proof.
  split; [apply (bool_decide_unpack _); vm_compute; exact I|].
  apply download_known_url_no_fetch.
  apply (bool_decide_unpack _); vm_compute; exact I.
Defined.

Lemma download_identity_resolution_witness :
  ("https://a/1" ∉ user_repo_urls settings) /\
  net "https://a/1" [] = Ok (doc (Some "x")) /\
  resolve_identity (doc (Some "x")) "https://a/1" = ("x", "https://a/1", "x") /\
  download_one_repository net "https://a/1" [] (user_repo_urls settings)
    (user_repo_ids settings) w0
  = (Done (Ok (if decide ("x" ∈ user_repo_ids settings) then Duplicated else
               Success {| info_id := "x"; info_url := "https://a/1"; display_name := "x";
                          info_packages := preview_packages (doc (Some "x")) |})),
     log_event (EvFetch "https://a/1") w0).
Proof.
  split; [apply (bool_decide_unpack _); vm_compute; exact I|].
  split; [reflexivity|]. split; [reflexivity|].
  apply (download_identity_resolution net "https://a/1" [] (user_repo_urls settings)
           (user_repo_ids settings) w0 (doc (Some "x")) "x" "https://a/1" "x");
    [apply (bool_decide_unpack _); vm_compute; exact I | reflexivity | reflexivity].
Defined.

Lemma bad_url_no_effect_witness :
  parse "ftp:bad" = None /\
  environment_download_repository parse net load_ok "ftp:bad" [] w0 = (Done BadUrl, w0) /\
  environment_add_repository parse load_ok save_ok add_remote_ok "ftp:bad" [] w0
  = (Done AddBadUrl, w0).
Proof.
  split; [reflexivity|]. apply bad_url_no_effect. reflexivity.
Defined.

Lemma download_preview_latest_non_yanked_witness :
  net "https://a/1" [] = Ok (doc (Some "x")) /\
  download_one_repository net "https://a/1" [] (user_repo_urls settings)
    (user_repo_ids settings) w0
  = (Done (Ok (Success (value_x "https://a/1"))), log_event (EvFetch "https://a/1") w0) /\
  exists pick : PackageVersions -> option PackageManifest,
    info_packages (value_x "https://a/1") = omap pick (rr_packages (doc (Some "x"))) /\
    forall p,
      (pick p = None <-> Forall (fun m => is_yanked m = true) (versions p)) /\
      forall m, pick p = Some m ->
        m ∈ versions p /\ is_yanked m = false /\
        forall m', m' ∈ versions p -> is_yanked m' = false ->
                   pkg_version m' <= pkg_version m.
Proof.
  split; [reflexivity|]. split; [vm_compute; reflexivity|].
  apply (download_preview_latest_non_yanked net "https://a/1" [] (user_repo_urls settings)
           (user_repo_ids settings) w0 (log_event (EvFetch "https://a/1") w0));
    [reflexivity | vm_compute; reflexivity].
Defined.

Lemma known_sets_from_settings_witness :
  (forall r, r ∈ user_repos settings -> repo_url r <> Some curated_repository_url) /\
  (curated_repository_url ∈ user_repo_urls settings <->
   ignore_curated_repository settings = false).
Proof.
  assert (Hnone : forall r, r ∈ user_repos settings ->
                            repo_url r <> Some curated_repository_url).
  { intros r Hr. simpl in Hr. apply list_elem_of_singleton in Hr. subst r.
    vm_compute. discriminate. }
  split; [exact Hnone|].
  exact (proj1 (proj2 (proj2 (known_sets_from_settings settings))) Hnone).
Defined.

Lemma import_dedup_earliest_success_witness :
  Permutation sched (seq 0 (length batch)) /\
  load_ok (w_settings w0) = Ok settings /\
  environment_import_download_repositories net load_ok (fun _ => true) sched batch w0
  = (Done batch_results, snd batch_run) /\
  forall i d v,
    batch !! i = Some d ->
    raw_outcome net (user_repo_urls settings) (user_repo_ids settings) d = Success v ->
    (batch_results !! i = Some (d, Success v) <->
       (info_id v ∉ user_repo_ids settings) /\
       (forall j d' v', j < i -> batch !! j = Some d' ->
         raw_outcome net (user_repo_urls settings) (user_repo_ids settings) d' = Success v' ->
         info_id v' <> info_id v)) /\
    (batch_results !! i = Some (d, Success v) \/ batch_results !! i = Some (d, Duplicated)).
Proof.
  assert (Hperm : Permutation sched (seq 0 (length batch)))
    by (apply (bool_decide_unpack _); vm_compute; exact I).
  assert (Hrun : environment_import_download_repositories net load_ok (fun _ => true)
                   sched batch w0 = (Done batch_results, snd batch_run))
    by (vm_compute; reflexivity).
  split; [exact Hperm|]. split; [reflexivity|]. split; [exact Hrun|].
  exact (import_dedup_earliest_success net load_ok (fun _ => true) sched batch w0
           (snd batch_run) settings batch_results Hperm eq_refl Hrun).
Defined.

Lemma import_progress_values_witness :
  Permutation sched (seq 0 (length batch)) /\
  load_ok (w_settings w0) = Ok settings /\
  exists results w',
    environment_import_download_repositories net load_ok (fun _ => true) sched batch w0
    = (Done results, w') /\
    emitted (w_log w') = (emitted (w_log w0) ++ seq 0 (length batch))%list.
Proof.
  assert (Hperm : Permutation sched (seq 0 (length batch)))
    by (apply (bool_decide_unpack _); vm_compute; exact I).
  split; [exact Hperm|]. split; [reflexivity|].
  exact (import_progress_values net load_ok sched batch w0 settings Hperm eq_refl).
Defined.

(** C2 counterexample: a batch of four descriptors delivers the progress
    values 0, 1, 2, 3; the batch size 4 is never emitted. *)
Lemma import_progress_never_emits_batch_size :
  emitted (w_log (snd batch_run)) = [0; 1; 2; 3] /\
  length batch ∉ emitted (w_log (snd batch_run)).
Proof.
  split; [vm_compute; reflexivity|].
  apply (bool_decide_unpack _). vm_compute. exact I.
Qed.

Lemma import_closed_channel_non_fatal_witness :
  Permutation sched (seq 0 (length batch)) /\
  load_ok (w_settings w0) = Ok settings /\
  exists results w',
    environment_import_download_repositories net load_ok (fun _ => false) sched batch w0
    = (Done results, w') /\
    length results = length batch /\
    fst (environment_import_download_repositories net load_ok
           (fun _ => true) sched batch w0) = Done results /\
    emitted (w_log w') = (emitted (w_log w0) ++
      filter (fun k => (fun _ => false) k) (seq 0 (length batch)))%list.
Proof.
  assert (Hperm : Permutation sched (seq 0 (length batch)))
    by (apply (bool_decide_unpack _); vm_compute; exact I).
  split; [exact Hperm|]. split; [reflexivity|].
  exact (import_closed_channel_non_fatal net load_ok (fun _ => false) sched batch w0
           settings Hperm eq_refl).
Defined.

Lemma import_results_in_submission_order_witness :
  Permutation sched (seq 0 (length batch)) /\
  load_ok (w_settings w0) = Ok settings /\
  environment_import_download_repositories net load_ok (fun _ => true) sched batch w0
  = (Done batch_results, snd batch_run) /\
  length batch_results = length batch /\
  forall i d, batch !! i = Some d ->
    exists o, batch_results !! i = Some (d, o) /\ o <> BadUrl /\
      (o = raw_outcome net (user_repo_urls settings) (user_repo_ids settings) d \/
       (o = Duplicated /\ exists v,
          raw_outcome net (user_repo_urls settings) (user_repo_ids settings) d = Success v)).
Proof.
  assert (Hperm : Permutation sched (seq 0 (length batch)))
    by (apply (bool_decide_unpack _); vm_compute; exact I).
  assert (Hrun : environment_import_download_repositories net load_ok (fun _ => true)
                   sched batch w0 = (Done batch_results, snd batch_run))
    by (vm_compute; reflexivity).
  split; [exact Hperm|]. split; [reflexivity|]. split; [exact Hrun|].
  exact (import_results_in_submission_order net load_ok (fun _ => true) sched batch w0
           (snd batch_run) settings batch_results Hperm eq_refl Hrun).
Defined.

Lemma mutating_ops_clear_cache_witness :
  remove_user_package_run = (Done true, snd remove_user_package_run) /\
  w_cache (snd remove_user_package_run) = CacheEmpty /\
  last (w_log (snd remove_user_package_run)) = Some EvClearCache.
Proof.
  assert (Hrun : remove_user_package_run = (Done true, snd remove_user_package_run))
    by (vm_compute; reflexivity).
  split; [exact Hrun|].
  exact (mutating_ops_clear_cache parse load_ok save_ok add_remote_ok remove_file_ok
           (Ok tt) add_user_package_ok remove_user_package_ok (Some (PathUtf8 "/pkg"))
           (OpRemoveUserPackages "/pkg") w0 (snd remove_user_package_run) Hrun).
Defined.

Lemma environment_packages_enumerated_witness :
  fst packages_run = Done packages_res /\
  length packages_res = length (pc_packages coll) /\
  forall i p, pc_packages coll !! i = Some p ->
    exists t, packages_res !! i = Some t /\ index t = i /\ env_version t = pc_version coll /\
              base t = pi_package_json p /\ (source t = LocalUser <-> pi_repo p = None).
Proof.
  split; [vm_compute; reflexivity|].
  apply (environment_packages_enumerated load_ok (packages_load_ok coll) w0
           (log_event EvLoadSettings w0) (snd packages_run) settings coll packages_res);
    [reflexivity|reflexivity|vm_compute; reflexivity].
Defined.

Lemma environment_packages_panics_iff_witness :
  (exists msg, fst (environment_packages load_ok (packages_load_ok coll_bad) w0)
               = Abort (Panicked msg)) /\
  (((exists msg, fst (environment_packages load_ok (packages_load_ok coll_bad) w0)
                 = Abort (Panicked msg)) <->
    exists p r, p ∈ pc_packages coll_bad /\ pi_repo p = Some r /\
                lcr_id r = None /\ lcr_url r = None) /\
   ((exists res, fst (environment_packages load_ok (packages_load_ok coll_bad) w0) = Done res) \/
    exists msg, fst (environment_packages load_ok (packages_load_ok coll_bad) w0)
                = Abort (Panicked msg))).
Proof.
  split; [eexists; vm_compute; reflexivity|].
  apply (environment_packages_panics_iff load_ok (packages_load_ok coll_bad) w0
           (log_event EvLoadSettings w0) settings coll_bad); reflexivity.
Defined.

Lemma environment_repositories_info_entries_witness :
  snd info_run = log_event EvLoadSettings w_noid /\
  ((exists msg, fst info_run = Abort (Panicked msg)) <->
   exists r, r ∈ user_repos settings_noid /\ repo_id r = None /\ repo_url r = None) /\
  forall info, fst info_run = Done info ->
    Forall2 (fun r u => option_or (repo_id r) (repo_url r) = Some (ur_id u) /\
                        ur_url u = repo_url r /\
                        ur_display_name u = default (ur_id u) (repo_name r))
      (user_repos settings_noid) (user_repositories info).
Proof.
  apply (environment_repositories_info_entries load_ok show_prerelease_off config0
           w_noid (snd info_run) settings_noid (fst info_run));
    [reflexivity|vm_compute; reflexivity].
Defined.


Lemma environment_remove_repository_effects_witness :
  fst remove_run = Done tt /\
  user_repos (w_settings (snd remove_run))
  = filter (fun r => negb (option_eqb_string (repo_id r) "y")) (user_repos settings) /\
  exists tail,
    w_log (snd remove_run) = (w_log w0 ++ EvLoadSettingsMut ::
      ((fun r => EvRemoveFile (repo_local_path r)) <$>
         filter (fun r => option_eqb_string (repo_id r) "y") (user_repos settings))
      ++ EvSaveSettings :: tail)%list /\
    match save_ok (w_settings (snd remove_run)) with
    | Ok _ => fst remove_run = Done tt /\ tail = [EvClearCache]
    | Err e => fst remove_run = Abort (Aborted e) /\ tail = [] /\
               w_cache (snd remove_run) = w_cache w0
    end.
Proof.
  split; [vm_compute; reflexivity|].
  apply (environment_remove_repository_effects load_ok save_ok remove_file_denied "y" w0
           (snd remove_run) settings (fst remove_run));
    [reflexivity|vm_compute; reflexivity].
Defined.

Lemma repository_without_id_not_removable_by_listed_id_witness :
  (exists ur, ur ∈ user_repositories
                (match fst info_run with Done i => i | Abort _ =>
                   {| user_repositories := []; hidden_user_repositories := [];
                      info_hide_local_user_packages := false;
                      show_prerelease_packages := false |} end) /\
              ur_id ur = "https://c/" /\ ur_url ur = Some "https://c/") /\
  repo_noid ∈ user_repos (w_settings (snd remove_noid_run)).
Proof.
  apply (repository_without_id_not_removable_by_listed_id load_ok load_ok save_ok
           remove_file_ok show_prerelease_off config0 repo_noid "https://c/"
           w_noid (snd info_run) w_noid (snd remove_noid_run) settings_noid settings_noid
           _ (fst remove_noid_run));
    [reflexivity|reflexivity|reflexivity|
     apply list_elem_of_In; vm_compute; repeat (first [left; reflexivity | right])|
     vm_compute; reflexivity|reflexivity|
     apply list_elem_of_In; vm_compute; repeat (first [left; reflexivity | right])|
     vm_compute; reflexivity].
Defined.


Lemma mutating_ops_failure_keeps_cache_witness :
  fst remove_save_denied_run <> Done true /\
  w_cache (snd remove_save_denied_run) = w_cache w0.
Proof.
  assert (Hne : fst remove_save_denied_run <> Done true)
    by (vm_compute; intros H; discriminate H).
  split; [exact Hne|].
  apply (mutating_ops_failure_keeps_cache parse load_ok save_denied add_remote_ok
           remove_file_ok (Ok tt) add_user_package_ok remove_user_package_ok None
           (OpRemoveRepository "y") w0 (snd remove_save_denied_run)
           (fst remove_save_denied_run)); [vm_compute; reflexivity|exact Hne].
Defined.

Lemma add_user_package_with_picker_saves_only_on_success_witness :
  fst picker_run = Done AlreadyAdded /\
  w_cache (snd picker_run) = w_cache w0 /\
  exists es, w_log (snd picker_run) = (w_log w0 ++ es)%list /\ EvSaveSettings ∉ es.
Proof.
  split; [vm_compute; reflexivity|].
  apply (add_user_package_with_picker_saves_only_on_success load_ok save_ok
           add_user_package_already (Some (PathUtf8 "/pkg")) w0 (snd picker_run)
           AlreadyAdded); [vm_compute; reflexivity|intros H; discriminate H].
Defined.

Lemma environment_download_repository_effects_witness :
  w_settings (snd download_run) = w_settings w0 /\ w_cache (snd download_run) = w_cache w0 /\
  exists es, w_log (snd download_run) = (w_log w0 ++ es)%list /\
    (es = [] \/ es = [EvLoadSettings] \/
     exists u, parse "https://a/1" = Some u /\ es = [EvLoadSettings; EvFetch u]).
Proof.
  apply (environment_download_repository_effects parse net load_ok "https://a/1" []
           w0 (snd download_run) (fst download_run)).
  vm_compute; reflexivity.
Defined.

Lemma import_results_success_ids_distinct_witness :
  match batch_results with
  | (_, Success v) :: (_, Duplicated) :: _ => info_id v = "x"
  | _ => False
  end /\
  exists settings, load_ok (w_settings w0) = Ok settings /\
    (forall i d v, batch_results !! i = Some (d, Success v) ->
       info_id v ∉ user_repo_ids settings) /\
    (forall i j d d' v v', i <> j ->
       batch_results !! i = Some (d, Success v) -> batch_results !! j = Some (d', Success v') ->
       info_id v <> info_id v').
Proof.
  split; [vm_compute; reflexivity|].
  apply (import_results_success_ids_distinct net load_ok (fun _ => true) sched batch w0
           (snd batch_run) batch_results).
  vm_compute; reflexivity.
Defined.

Lemma environment_hide_repository_inserts_witness :
  gui_hidden_repositories (snd (environment_hide_repository config_load_ok config_save_ok
                                   "c" config0)) = ["a"; "b"; "c"] /\
  let config' := snd (environment_hide_repository config_load_ok config_save_ok "c" config0) in
  NoDup (gui_hidden_repositories config') /\
  "c" ∈ gui_hidden_repositories config' /\
  gui_hidden_repositories config0 `prefix_of` gui_hidden_repositories config' /\
  length (gui_hidden_repositories config') <= S (length (gui_hidden_repositories config0)) /\
  ("c" ∈ gui_hidden_repositories config0 ->
   gui_hidden_repositories config' = gui_hidden_repositories config0) /\
  hide_local_user_packages config' = hide_local_user_packages config0 /\
  fst (environment_hide_repository config_load_ok config_save_ok "c" config0)
  = config_save_ok config'.
Proof.
  split; [vm_compute; reflexivity|].
  apply (environment_hide_repository_inserts config_load_ok config_save_ok "c" config0
           config0 _ _); [reflexivity|reflexivity|].
  apply (bool_decide_unpack _); vm_compute; exact I.
Defined.

Lemma environment_show_repository_removes_witness :
  gui_hidden_repositories (snd (environment_show_repository config_load_ok config_save_ok
                                   "a" config0)) = ["b"] /\
  let config' := snd (environment_show_repository config_load_ok config_save_ok "a" config0) in
  NoDup (gui_hidden_repositories config') /\
  ("a" ∉ gui_hidden_repositories config') /\
  (forall y, y <> "a" ->
     y ∈ gui_hidden_repositories config' <-> y ∈ gui_hidden_repositories config0) /\
  gui_hidden_repositories config' `sublist_of` gui_hidden_repositories config0 /\
  hide_local_user_packages config' = hide_local_user_packages config0 /\
  fst (environment_show_repository config_load_ok config_save_ok "a" config0)
  = config_save_ok config'.
Proof.
  split; [vm_compute; reflexivity|].
  apply (environment_show_repository_removes config_load_ok config_save_ok "a" config0
           config0 _ _); [reflexivity|reflexivity|].
  apply (bool_decide_unpack _); vm_compute; exact I.
Defined.

Lemma hide_then_show_restores_config_witness :
  snd (environment_show_repository config_load_ok config_save_ok "c"
         (snd (environment_hide_repository config_load_ok config_save_ok "c" config0)))
  = config0.
Proof.
  apply (hide_then_show_restores_config config_load_ok config_save_ok "c" config0
           (snd (environment_hide_repository config_load_ok config_save_ok "c" config0)) _
           (fst (environment_hide_repository config_load_ok config_save_ok "c" config0))
           (fst (environment_show_repository config_load_ok config_save_ok "c"
                   (snd (environment_hide_repository config_load_ok config_save_ok "c" config0)))));
    [intros c; reflexivity|apply (bool_decide_unpack _); vm_compute; exact I|
     reflexivity|reflexivity].
Defined.

End Witnesses.
